(** * Error boundary and IndexedDB access layer

    A shallow embedding of [src/Error/indexedDB.ts] (the stage handlers) and
    of the hook [useIndexedDB] (the storage access layer).

    The code is effectful JavaScript: it throws and catches, writes to the
    console, calls an external asynchronous engine (IndexedDB), allocates
    promises and assigns [onsuccess]/[onerror] fields on request objects.
    It is embedded in a state-and-exception monad [M] over a [World] that
    holds the engine's state, the trace of observable events, the promise
    table and the heap of request objects.  The engine itself is an external
    collaborator: it is a parameter of the development, so every theorem
    holds for every engine behaviour. *)

From Stdlib Require Import String List ZArith Bool.
From stdpp Require Import base gmap.

Open Scope string_scope.
Open Scope list_scope.

(** ** JavaScript data *)

(** An error object: the two fields the code reads or writes. *)
Record JsError := mkError { err_name : string; err_message : string }.

(** [err.name = n] on an error object. *)
Definition set_name (n : string) (e : JsError) : JsError :=
  {| err_name := n; err_message := err_message e |}.

(** [new Error(msg)] *)
Definition new_Error (msg : string) : JsError :=
  {| err_name := "Error"; err_message := msg |}.

#[warnings="-register-all"]
Inductive value :=
| VUndefined
| VNull
| VBool (b : bool)
| VNum (n : Z)
| VStr (s : string)
| VError (e : JsError)
| VObj (fields : list (string * value)).

Fixpoint lookup_field (k : string) (fs : list (string * value)) : value :=
  match fs with
  | [] => VUndefined
  | (k', v) :: rest => if String.eqb k k' then v else lookup_field k rest
  end.

(** [v?.k] : optional chaining on a member read. *)
Definition optional_member (v : value) (k : string) : value :=
  match v with
  | VObj fs => lookup_field k fs
  | _ => VUndefined
  end.

(** The outcome of running a piece of code: it returns or it throws. *)
Inductive Outcome (A : Type) :=
| Ok (a : A)
| Throw (e : JsError).
Arguments Ok {A} a.
Arguments Throw {A} e.

(** ** Handles of the engine's objects *)

Definition IDBDatabase := nat.
Definition IDBTransaction := nat.
Definition IDBObjectStore := nat.
Definition IDBIndex := nat.
Definition IDBRequest := nat.
Definition Promise := nat.
(** A caller-supplied [onSuccess]/[onError] function, opaque to the layer. *)
Definition UserCallback := nat.

Inductive IDBTransactionMode := readonly | readwrite.
Inductive IDBCursorDirection := next | nextunique | prev | prevunique.

(** The engine's synchronous interface, indexed by what a call returns.
    [Continue] (advancing a cursor) is part of the engine's contract; the
    layer never issues it. *)
Inductive EngineCall : Type -> Type :=
| DeleteDatabase (dbName : option string) : EngineCall IDBRequest
| Contains (db : IDBDatabase) (name : string) : EngineCall bool
| CreateObjectStore (db : IDBDatabase) (name keyPath : string) : EngineCall IDBObjectStore
| CreateIndex (store : IDBObjectStore) (name keyPath : string) (unique : bool) : EngineCall IDBIndex
| DeleteObjectStore (db : IDBDatabase) (name : string) : EngineCall unit
| Transaction (db : IDBDatabase) (name : string) (mode : IDBTransactionMode) : EngineCall IDBTransaction
| ObjectStore (tx : IDBTransaction) (name : string) : EngineCall IDBObjectStore
| Index (store : IDBObjectStore) (name : string) : EngineCall IDBIndex
| OpenCursor (index : IDBIndex) (range : value) (direction : IDBCursorDirection) : EngineCall IDBRequest
| Get (store : IDBObjectStore) (key : value) : EngineCall IDBRequest
| Add (store : IDBObjectStore) (v key : value) : EngineCall IDBRequest
| Put (store : IDBObjectStore) (v key : value) : EngineCall IDBRequest
| Delete (store : IDBObjectStore) (key : value) : EngineCall IDBRequest
| Continue (cursor : IDBRequest) : EngineCall unit.

Inductive ConsoleLevel := console_error | console_warn | console_log.

(** What an observer of the program sees, in order. *)
Inductive Event :=
| EvConsole (level : ConsoleLevel) (text : string) (args : list value)
| EvEngine {A : Type} (c : EngineCall A)
| EvUser (f : UserCallback).

Definition is_console (ev : Event) : bool :=
  match ev with EvConsole _ _ _ => true | _ => false end.

Definition is_engine (ev : Event) : bool :=
  match ev with EvEngine _ => true | _ => false end.

Definition is_schema_mutation (ev : Event) : bool :=
  match ev with
  | EvEngine (CreateObjectStore _ _ _) => true
  | EvEngine (CreateIndex _ _ _ _) => true
  | EvEngine (DeleteObjectStore _ _) => true
  | _ => false
  end.

Definition is_cursor_advance (ev : Event) : bool :=
  match ev with EvEngine (Continue _) => true | _ => false end.

(** ** Promises and request objects *)

Inductive PromiseState :=
| Pending
| Fulfilled (v : value)
| Rejected (reason : value).

(** The closures the layer assigns to [onsuccess]/[onerror], one constructor
    per function expression of the source, with its captured variables. *)
Inductive Callback :=
| CbGetValueSuccess (p : Promise) (request : IDBRequest)
| CbGetValueError (p : Promise) (request : IDBRequest)
| CbCursorSuccess (p : Promise) (cursor : IDBRequest)
| CbCursorError (p : Promise)
| CbSaveSuccess (onSuccess : option UserCallback)
| CbSaveError (onError : option UserCallback)
| CbDeleteSuccess (onSuccess : option UserCallback)
| CbDeleteError (onError : option UserCallback).

Record RequestObj := mkRequest {
  req_result : value;
  req_error : value;
  req_onsuccess : option Callback;
  req_onerror : option Callback
}.

Definition fresh_request : RequestObj :=
  {| req_result := VUndefined; req_error := VNull;
     req_onsuccess := None; req_onerror := None |}.

(** The two notification channels of a request. *)
Inductive Notification :=
| NSuccess (result : value)
| NError (error : value).

(** The engine, seen from the layer: a state and the answer to each
    synchronous call, a returned value or a thrown error, with the state that
    follows. *)
Class Engine (S : Type) :=
  engine : forall A : Type, EngineCall A -> S -> Outcome A * S.

Section Layer.

Context {S : Type} {engine_S : Engine S}.

Record World := mkWorld {
  eng : S;
  trace : list Event;
  promises : gmap nat PromiseState;
  next_promise : nat;
  requests : gmap nat RequestObj
}.

Definition M (A : Type) : Type := World -> Outcome A * World.

Definition ret {A} (a : A) : M A := fun w => (Ok a, w).

Definition bind {A B} (m : M A) (k : A -> M B) : M B :=
  fun w => match m w with
           | (Ok a, w') => k a w'
           | (Throw e, w') => (Throw e, w')
           end.

Definition throw {A} (e : JsError) : M A := fun w => (Throw e, w).

(** [try { m } catch (err) { h err }] *)
Definition try_catch {A} (m : M A) (h : JsError -> M A) : M A :=
  fun w => match m w with
           | (Ok a, w') => (Ok a, w')
           | (Throw e, w') => h e w'
           end.

Notation "x <- m ;; k" := (bind m (fun x => k))
  (at level 100, m at next level, right associativity).
Notation "m ;; k" := (bind m (fun _ => k))
  (at level 100, right associativity).

Definition emit (ev : Event) : M unit :=
  fun w => (Ok tt, {| eng := eng w; trace := trace w ++ [ev];
                      promises := promises w; next_promise := next_promise w;
                      requests := requests w |}).

Definition console (level : ConsoleLevel) (text : string) (args : list value) : M unit :=
  emit (EvConsole level text args).

(** A synchronous call into the engine: recorded, then answered by the
    engine, which returns a value or throws. *)
Definition call {A} (c : EngineCall A) : M A :=
  fun w => let (r, s') := engine A c (eng w) in
           (r, {| eng := s'; trace := trace w ++ [EvEngine c];
                  promises := promises w; next_promise := next_promise w;
                  requests := requests w |}).

Definition when (b : bool) (m : M unit) : M unit :=
  if b then m else ret tt.

(** ** Error/indexedDB.ts *)

Inductive ErrorName :=
| transactionError
| objectStoreError
| createError
| indexError
| openCursorError.

Definition errorNameEnum (n : ErrorName) : string :=
  match n with
  | transactionError => "transactionError"
  | objectStoreError => "objectStoreError"
  | createError => "createError"
  | indexError => "indexError"
  | openCursorError => "openCursorError"
  end.

Definition errorCase (err : JsError) : M unit :=
  when (String.eqb (err_name err) "transactionError")
       (console console_error (err_name err ++ " 이 발생했습니다")%string [VError err]) ;;
  when (String.eqb (err_name err) "objectStoreError")
       (console console_error (err_name err ++ " 이 발생했습니다")%string [VError err]) ;;
  when (String.eqb (err_name err) "createError")
       (console console_error (err_name err ++ " 이 발생했습니다")%string [VError err]) ;;
  when (String.eqb (err_name err) "indexError")
       (console console_error (err_name err ++ " 이 발생했습니다")%string [VError err]) ;;
  when (String.eqb (err_name err) "openCursorError")
       (console console_error (err_name err ++ " 이 발생했습니다")%string [VError err]) ;;
  throw err.

(** Modelled from the spec: [customErrHandlerGenerator] of the module
    ['Error'], which is not among the sources.  The classifier "invokes the
    action; on success it returns the produced value unchanged; on failure it
    attaches the failure name to the error object and re-throws". *)
Definition customErrHandlerGenerator (errorName : string) {A} (action : M A) : M A :=
  try_catch action (fun err => throw (set_name errorName err)).

(** Modelled from the spec: [customErrorBoundaryGenerator] of the module
    ['Error'], which is not among the sources.  The boundary, "given a tagged
    error, runs a reporting policy selected by the error's name and then
    unconditionally re-throws the same error"; the reporting policy is the
    [errorCase] it is given, the tagged error is what the classifier it wraps
    throws. *)
Definition customErrorBoundaryGenerator (errorCase : JsError -> M unit)
    (handler : forall A, M A -> M A) {A} (action : M A) : M A :=
  try_catch (handler A action) (fun err => errorCase err ;; throw err).

Definition customErrorBoundary (handler : forall A, M A -> M A) {A} (action : M A) : M A :=
  customErrorBoundaryGenerator errorCase handler action.

Definition errorHandlerGenerator (errorName : ErrorName) {A} (action : M A) : M A :=
  customErrorBoundary (fun B => @customErrHandlerGenerator (errorNameEnum errorName) B) action.

Definition handleTransactionErr {A} := @errorHandlerGenerator transactionError A.
Definition handleObjectStoreErr {A} := @errorHandlerGenerator objectStoreError A.
Definition handleCreateErr {A} := @errorHandlerGenerator createError A.
Definition handleIndexErr {A} := @errorHandlerGenerator indexError A.
Definition handleOpenCursorErr {A} := @errorHandlerGenerator openCursorError A.

(** The diagnostic the reporting policy emits for a stage. *)
Definition stage_diagnostic (n : ErrorName) (err : JsError) : Event :=
  EvConsole console_error (errorNameEnum n ++ " 이 발생했습니다")%string [VError err].

(** ** Promises *)

Definition with_promises (ps : gmap nat PromiseState) (w : World) : World :=
  {| eng := eng w; trace := trace w; promises := ps;
     next_promise := next_promise w; requests := requests w |}.

Definition with_requests (rs : gmap nat RequestObj) (w : World) : World :=
  {| eng := eng w; trace := trace w; promises := promises w;
     next_promise := next_promise w; requests := rs |}.

(** Settling a promise: only a pending promise changes state. *)
Definition settle (p : Promise) (st : PromiseState) : M unit :=
  fun w => match promises w !! p with
           | Some Pending => (Ok tt, with_promises (<[p := st]> (promises w)) w)
           | _ => (Ok tt, w)
           end.

Definition resolve (p : Promise) (v : value) : M unit := settle p (Fulfilled v).
Definition reject (p : Promise) (reason : value) : M unit := settle p (Rejected reason).

(** [new Promise(executor)]: the executor runs synchronously; an exception
    that escapes it rejects the promise. *)
Definition new_Promise (executor : Promise -> M unit) : M Promise :=
  fun w =>
    let p := next_promise w in
    let w1 := {| eng := eng w; trace := trace w;
                 promises := <[p := Pending]> (promises w);
                 next_promise := Datatypes.S p; requests := requests w |} in
    match executor p w1 with
    | (Ok _, w2) => (Ok p, w2)
    | (Throw e, w2) => (Ok p, snd (reject p (VError e) w2))
    end.

(** ** Request objects *)

Definition request_obj (w : World) (r : IDBRequest) : RequestObj :=
  default fresh_request (requests w !! r).

(** [request.onsuccess = cb] *)
Definition set_onsuccess (r : IDBRequest) (cb : Callback) : M unit :=
  fun w => let o := request_obj w r in
           (Ok tt, with_requests
                     (<[r := {| req_result := req_result o; req_error := req_error o;
                                req_onsuccess := Some cb; req_onerror := req_onerror o |}]>
                        (requests w)) w).

(** [request.onerror = cb] *)
Definition set_onerror (r : IDBRequest) (cb : Callback) : M unit :=
  fun w => let o := request_obj w r in
           (Ok tt, with_requests
                     (<[r := {| req_result := req_result o; req_error := req_error o;
                                req_onsuccess := req_onsuccess o; req_onerror := Some cb |}]>
                        (requests w)) w).

(** [request.result] and [request.error] *)
Definition read_result (r : IDBRequest) : M value :=
  fun w => (Ok (req_result (request_obj w r)), w).
Definition read_error (r : IDBRequest) : M value :=
  fun w => (Ok (req_error (request_obj w r)), w).

(** [f && f()] for a caller-supplied callback. *)
Definition invoke_optional (f : option UserCallback) : M unit :=
  match f with
  | Some g => emit (EvUser g)
  | None => ret tt
  end.

(** The bodies of the function expressions assigned to [onsuccess] and
    [onerror] in useIndexedDB. *)
Definition run_callback (cb : Callback) : M unit :=
  match cb with
  | CbGetValueSuccess p request => v <- read_result request ;; resolve p v
  | CbGetValueError p request => e <- read_error request ;; reject p e
  | CbCursorSuccess p cursor =>
      res <- read_result cursor ;; resolve p (optional_member res "value")
  | CbCursorError p =>
      reject p (VError (new_Error "Failed to retrieve last value from object store"))
  | CbSaveSuccess onSuccess =>
      console console_log "save success" [] ;; invoke_optional onSuccess
  | CbSaveError onError =>
      console console_error "no suffient space to save data" [] ;; invoke_optional onError
  | CbDeleteSuccess onSuccess => invoke_optional onSuccess
  | CbDeleteError onError => invoke_optional onError
  end.

(** The engine's asynchronous contract: a request is settled by one
    notification, success (carrying a result) or error (carrying an error
    value); the engine stores it on the request object and calls the function
    found in the matching field, if any. *)
Definition notify (r : IDBRequest) (n : Notification) : M unit :=
  fun w =>
    let o := request_obj w r in
    match n with
    | NSuccess v =>
        let w1 := with_requests
                    (<[r := {| req_result := v; req_error := VNull;
                               req_onsuccess := req_onsuccess o;
                               req_onerror := req_onerror o |}]> (requests w)) w in
        match req_onsuccess o with
        | Some cb => run_callback cb w1
        | None => (Ok tt, w1)
        end
    | NError e =>
        let w1 := with_requests
                    (<[r := {| req_result := VUndefined; req_error := e;
                               req_onsuccess := req_onsuccess o;
                               req_onerror := req_onerror o |}]> (requests w)) w in
        match req_onerror o with
        | Some cb => run_callback cb w1
        | None => (Ok tt, w1)
        end
    end.

(** A run of the event loop: notifications delivered one after the other
    (an exception escaping a callback does not stop the loop). *)
Fixpoint deliver (ns : list (IDBRequest * Notification)) (w : World) : World :=
  match ns with
  | [] => w
  | (r, n) :: rest => deliver rest (snd (notify r n w))
  end.

(** ** hooks/useIndexedDB.ts *)

(** [{ reason: 'uncaught error', err }] *)
Definition uncaught (err : JsError) : value :=
  VObj [("reason", VStr "uncaught error"); ("err", VError err)].

Record GetValueParams := mkGetValueParams {
  gv_tableName : string;
  gv_indexing : option string;
  gv_key : value
}.

Inductive SaveType := put | add.

Record SaveValueParams := mkSaveValueParams {
  sv_tableName : string;
  sv_key : value;
  sv_value : value;
  sv_type : SaveType;
  sv_onSuccess : option UserCallback;
  sv_onError : option UserCallback
}.

Record DeleteValueParams := mkDeleteValueParams {
  dv_tableName : string;
  dv_key : value;
  dv_onSuccess : option UserCallback;
  dv_onError : option UserCallback
}.

Section Hook.

(** [indexing.memo], a constant of 'indexedDB/versionManager'. *)
Variable indexing_memo : string.
(** The hook's parameter and the handle read from the shared state:
    [IDBDatabase | null]. *)
Variable dbName : option string.
Variable database : option IDBDatabase.

Definition getDatabase : M (option IDBDatabase) := ret database.

Definition destroyDatabase : M (option IDBRequest) :=
  match database with
  | None => console console_warn "no database" [] ;; ret None
  | Some _ => r <- call (DeleteDatabase dbName) ;; ret (Some r)
  end.

(** [db_arg] is the optional second argument: [None] when it is omitted,
    in which case the default [database] is taken. *)
Definition createTable (tableName : string) (db_arg : option (option IDBDatabase))
  : M (option IDBObjectStore) :=
  let db := match db_arg with Some d => d | None => database end in
  match db with
  | None => console console_error "no database" [] ;; ret None
  | Some db =>
      present <- call (Contains db tableName) ;;
      if negb present then
        store <- call (CreateObjectStore db tableName indexing_memo) ;;
        _ <- call (CreateIndex store indexing_memo indexing_memo true) ;;
        ret (Some store)
      else ret None
  end.

Definition deleteTable (tableName : string) : M unit :=
  match database with
  | None => console console_error "no database" []
  | Some db => call (DeleteObjectStore db tableName)
  end.

Definition getValue (prm : GetValueParams) : M Promise :=
  new_Promise (fun p =>
    try_catch
      (match database with
       | None => resolve p VUndefined
       | Some db =>
           transaction <- handleTransactionErr (call (Transaction db (gv_tableName prm) readonly)) ;;
           table <- handleObjectStoreErr (call (ObjectStore transaction (gv_tableName prm))) ;;
           request <- call (Get table (gv_key prm)) ;;
           set_onsuccess request (CbGetValueSuccess p request) ;;
           set_onerror request (CbGetValueError p request)
       end)
      (fun err => reject p (uncaught err))).

Definition getLastValueFromTable (tableName indexing : string) : M Promise :=
  new_Promise (fun p =>
    try_catch
      (match database with
       | None => resolve p VUndefined
       | Some db =>
           transaction <- handleTransactionErr (call (Transaction db tableName readonly)) ;;
           table <- handleObjectStoreErr (call (ObjectStore transaction tableName)) ;;
           index <- handleIndexErr (call (Index table indexing)) ;;
           handleOpenCursorErr
             (cursor <- call (OpenCursor index VNull prev) ;;
              set_onsuccess cursor (CbCursorSuccess p cursor) ;;
              set_onerror cursor (CbCursorError p))
       end)
      (fun err => reject p (uncaught err))).

Definition saveValue (prm : SaveValueParams) : M unit :=
  match database with
  | None => console console_error "no database" []
  | Some db =>
      try_catch
        (transaction <- handleTransactionErr (call (Transaction db (sv_tableName prm) readwrite)) ;;
         table <- handleObjectStoreErr (call (ObjectStore transaction (sv_tableName prm))) ;;
         request <- handleCreateErr
                      (match sv_type prm with
                       | add => call (Add table (sv_value prm) (sv_key prm))
                       | put => call (Put table (sv_value prm) (sv_key prm))
                       end) ;;
         set_onsuccess request (CbSaveSuccess (sv_onSuccess prm)) ;;
         set_onerror request (CbSaveError (sv_onError prm)))
        (fun err => console console_log "uncaught error" [VError err])
  end.

Definition deleteValue (prm : DeleteValueParams) : M unit :=
  match database with
  | None => console console_error "no database" []
  | Some db =>
      try_catch
        (transaction <- handleTransactionErr (call (Transaction db (dv_tableName prm) readwrite)) ;;
         table <- handleObjectStoreErr (call (ObjectStore transaction (dv_tableName prm))) ;;
         request <- call (Delete table (dv_key prm)) ;;
         set_onsuccess request (CbDeleteSuccess (dv_onSuccess prm)) ;;
         set_onerror request (CbDeleteError (dv_onError prm)))
        (fun err => console console_log "uncaught error" [VError err])
  end.

End Hook.

(** ** What the engine answers along an operation

    The specification describes each record operation as a sequence of
    acquisitions followed by one request.  The functions below follow that
    description on the engine alone: they give the request that is issued,
    or the first call that throws, with the stage handler that wraps it
    ([None] for a call the source leaves unwrapped).  The operations above are
    compared with them. *)

Inductive Acquired :=
| Issued (request : IDBRequest)
| Failed (stage : option ErrorName) (e : JsError).

(** The error a [catch] clause of the layer receives for a failure. *)
Definition caught (stage : option ErrorName) (e : JsError) : JsError :=
  match stage with
  | Some n => set_name (errorNameEnum n) e
  | None => e
  end.

Definition getValue_acquisition (db : IDBDatabase) (prm : GetValueParams) (s : S) : Acquired :=
  match engine _ (Transaction db (gv_tableName prm) readonly) s with
  | (Throw e, _) => Failed (Some transactionError) e
  | (Ok transaction, s1) =>
      match engine _ (ObjectStore transaction (gv_tableName prm)) s1 with
      | (Throw e, _) => Failed (Some objectStoreError) e
      | (Ok table, s2) =>
          match engine _ (Get table (gv_key prm)) s2 with
          | (Throw e, _) => Failed None e
          | (Ok request, _) => Issued request
          end
      end
  end.

Definition getLastValue_acquisition (db : IDBDatabase) (tableName indexing : string) (s : S)
  : Acquired :=
  match engine _ (Transaction db tableName readonly) s with
  | (Throw e, _) => Failed (Some transactionError) e
  | (Ok transaction, s1) =>
      match engine _ (ObjectStore transaction tableName) s1 with
      | (Throw e, _) => Failed (Some objectStoreError) e
      | (Ok table, s2) =>
          match engine _ (Index table indexing) s2 with
          | (Throw e, _) => Failed (Some indexError) e
          | (Ok index, s3) =>
              match engine _ (OpenCursor index VNull prev) s3 with
              | (Throw e, _) => Failed (Some openCursorError) e
              | (Ok cursor, _) => Issued cursor
              end
          end
      end
  end.

Definition saveValue_acquisition (db : IDBDatabase) (prm : SaveValueParams) (s : S) : Acquired :=
  match engine _ (Transaction db (sv_tableName prm) readwrite) s with
  | (Throw e, _) => Failed (Some transactionError) e
  | (Ok transaction, s1) =>
      match engine _ (ObjectStore transaction (sv_tableName prm)) s1 with
      | (Throw e, _) => Failed (Some objectStoreError) e
      | (Ok table, s2) =>
          match engine _ (match sv_type prm with
                          | add => Add table (sv_value prm) (sv_key prm)
                          | put => Put table (sv_value prm) (sv_key prm)
                          end) s2 with
          | (Throw e, _) => Failed (Some createError) e
          | (Ok request, _) => Issued request
          end
      end
  end.

Definition deleteValue_acquisition (db : IDBDatabase) (prm : DeleteValueParams) (s : S)
  : Acquired :=
  match engine _ (Transaction db (dv_tableName prm) readwrite) s with
  | (Throw e, _) => Failed (Some transactionError) e
  | (Ok transaction, s1) =>
      match engine _ (ObjectStore transaction (dv_tableName prm)) s1 with
      | (Throw e, _) => Failed (Some objectStoreError) e
      | (Ok table, s2) =>
          match engine _ (Delete table (dv_key prm)) s2 with
          | (Throw e, _) => Failed None e
          | (Ok request, _) => Issued request
          end
      end
  end.

(** The event of [f && f()]. *)
Definition invoked (f : option UserCallback) : list Event :=
  match f with
  | Some g => [EvUser g]
  | None => []
  end.

(** The world after the engine answered a call. *)
Definition called {A} (c : EngineCall A) (s' : S) (w : World) : World :=
  {| eng := s'; trace := trace w ++ [EvEngine c]; promises := promises w;
     next_promise := next_promise w; requests := requests w |}.

(** The five exported stage handlers, by stage name. *)
Definition stage_handler (n : ErrorName) {A} : M A -> M A :=
  match n with
  | transactionError => handleTransactionErr
  | objectStoreError => handleObjectStoreErr
  | createError => handleCreateErr
  | indexError => handleIndexErr
  | openCursorError => handleOpenCursorErr
  end.

(** The world after more events were observed. *)
Definition observed (evs : list Event) (w : World) : World :=
  {| eng := eng w; trace := trace w ++ evs; promises := promises w;
     next_promise := next_promise w; requests := requests w |}.

End Layer.

Arguments World S : clear implicits.
Arguments M S A : clear implicits.

(** * A small engine to run the layer on

    An in-memory engine with the failure modes of IndexedDB that matter to
    the layer: a transaction or an object store on a table that does not
    exist throws NotFoundError, creating a table that exists throws
    ConstraintError, and [null] is not a valid key (DataError). *)

Record DemoState := mkDemo { tables : list string; next_handle : nat }.

Definition has_table (name : string) (s : DemoState) : bool :=
  existsb (String.eqb name) (tables s).

Definition fresh_handle (s : DemoState) : Outcome nat * DemoState :=
  (Ok (next_handle s), {| tables := tables s; next_handle := Datatypes.S (next_handle s) |}).

Definition is_null (v : value) : bool :=
  match v with VNull => true | _ => false end.

Definition NotFoundError : JsError := mkError "NotFoundError" "object store not found".
Definition ConstraintError : JsError := mkError "ConstraintError" "object store exists".
Definition DataError : JsError := mkError "DataError" "invalid key".

#[export] Instance demo_engine : Engine DemoState :=
  fun (A : Type) (c : EngineCall A) (s : DemoState) =>
  match c in EngineCall T return Outcome T * DemoState with
  | DeleteDatabase _ => fresh_handle s
  | Contains _ name => (Ok (has_table name s), s)
  | CreateObjectStore _ name _ =>
      if has_table name s then (Throw ConstraintError, s)
      else (Ok (next_handle s),
            {| tables := name :: tables s; next_handle := Datatypes.S (next_handle s) |})
  | CreateIndex _ _ _ _ => fresh_handle s
  | DeleteObjectStore _ name =>
      if has_table name s
      then (Ok tt, {| tables := List.filter (fun t => negb (String.eqb name t)) (tables s);
                      next_handle := next_handle s |})
      else (Throw NotFoundError, s)
  | Transaction _ name _ =>
      if has_table name s then fresh_handle s else (Throw NotFoundError, s)
  | ObjectStore _ name =>
      if has_table name s then fresh_handle s else (Throw NotFoundError, s)
  | Index _ name =>
      if String.eqb name "" then (Throw NotFoundError, s) else fresh_handle s
  | OpenCursor _ _ _ => fresh_handle s
  | Get _ key => if is_null key then (Throw DataError, s) else fresh_handle s
  | Add _ _ key => if is_null key then (Throw DataError, s) else fresh_handle s
  | Put _ _ key => if is_null key then (Throw DataError, s) else fresh_handle s
  | Delete _ key => if is_null key then (Throw DataError, s) else fresh_handle s
  | Continue _ => (Ok tt, s)
  end.

(** A world in which the database holds the given tables and nothing has
    happened yet. *)
Definition demo_world (ts : list string) : World DemoState :=
  {| eng := {| tables := ts; next_handle := 0 |}; trace := [];
     promises := ∅; next_promise := 0; requests := ∅ |}.

(** Two save requests for the table "memo", and an error the engine may
    report on a request. *)
Definition memo_put : SaveValueParams :=
  {| sv_tableName := "memo"; sv_key := VNum 1; sv_value := VStr "text";
     sv_type := put; sv_onSuccess := None; sv_onError := None |}.

Definition memo_add : SaveValueParams :=
  {| sv_tableName := "memo"; sv_key := VNum 1; sv_value := VStr "text";
     sv_type := add; sv_onSuccess := Some 7; sv_onError := Some 8 |}.

Definition QuotaExceededError : JsError := mkError "QuotaExceededError" "quota exceeded".

(** ** hooks/useUpdateCanvasSize.ts

    The hook registers one effect.  The effect reads the canvas from
    [canvasRef], stores its 2d context in [canvasCtxRef], sizes the canvas
    to its parent element and, off mobile, keeps it sized on every 'resize'
    of the window.  It is embedded in a state-and-exception monad over the
    part of the DOM it touches. *)

(** A canvas element: its [width] and [height], the [clientWidth] and
    [clientHeight] of its [parentElement] ([None] when it has no parent),
    and what [getContext('2d')] returns for it (a context, or null). *)
Record HTMLCanvasElement := mkCanvas {
  cv_width : nat;
  cv_height : nat;
  cv_parent : option (nat * nat);
  cv_context2d : option nat
}.

(** The content of [canvasCtxRef.current]. *)
Inductive ContextRef :=
| CtxUndefined
| CtxNull
| CtxObject (ctx : nat).

(** An [updateCanvasSize] closure: its identity and the canvas it
    captured, which is null when the ref was empty. *)
Record ResizeListener := mkListener {
  ls_closure : nat;
  ls_canvas : option nat
}.

Record Dom := mkDom {
  canvases : gmap nat HTMLCanvasElement;
  canvasRef_current : option nat;
  canvasCtxRef_current : ContextRef;
  resize_listeners : list ResizeListener;
  next_closure : nat
}.

(** The function the effect returns. *)
Inductive Cleanup :=
| RemoveResizeListener (f : ResizeListener).

Definition TypeError : JsError :=
  mkError "TypeError" "Cannot read properties of null".

Section CanvasSize.

Definition D (A : Type) : Type := Dom -> Outcome A * Dom.

Definition dret {A} (a : A) : D A := fun d => (Ok a, d).

Definition dbind {A B} (m : D A) (k : A -> D B) : D B :=
  fun d => match m d with
           | (Ok a, d') => k a d'
           | (Throw e, d') => (Throw e, d')
           end.

Notation "x <- m ;; k" := (dbind m (fun x => k))
  (at level 100, m at next level, right associativity).
Notation "m ;; k" := (dbind m (fun _ => k))
  (at level 100, right associativity).

Definition with_canvases (els : gmap nat HTMLCanvasElement) (d : Dom) : Dom :=
  {| canvases := els; canvasRef_current := canvasRef_current d;
     canvasCtxRef_current := canvasCtxRef_current d;
     resize_listeners := resize_listeners d; next_closure := next_closure d |}.

Definition with_listeners (ls : list ResizeListener) (d : Dom) : Dom :=
  {| canvases := canvases d; canvasRef_current := canvasRef_current d;
     canvasCtxRef_current := canvasCtxRef_current d;
     resize_listeners := ls; next_closure := next_closure d |}.

(** [canvasRef.current] *)
Definition read_canvasRef : D (option nat) :=
  fun d => (Ok (canvasRef_current d), d).

(** [canvas?.getContext('2d')] *)
Definition getContext2d (canvas : option nat) : D ContextRef :=
  fun d => match canvas with
           | None => (Ok CtxUndefined, d)
           | Some c =>
               match canvases d !! c with
               | Some el =>
                   (Ok (match cv_context2d el with
                        | Some ctx => CtxObject ctx
                        | None => CtxNull
                        end), d)
               | None => (Throw TypeError, d)
               end
           end.

(** [canvasCtxRef.current = canvasCtx] *)
Definition write_canvasCtxRef (ctx : ContextRef) : D unit :=
  fun d => (Ok tt, {| canvases := canvases d; canvasRef_current := canvasRef_current d;
                      canvasCtxRef_current := ctx;
                      resize_listeners := resize_listeners d;
                      next_closure := next_closure d |}).

(** [canvas.parentElement.clientWidth] and [.clientHeight]: a TypeError
    when the canvas or its parent is null. *)
Definition parent_client (canvas : option nat) : D (nat * nat) :=
  fun d => match canvas with
           | None => (Throw TypeError, d)
           | Some c =>
               match canvases d !! c with
               | Some el =>
                   match cv_parent el with
                   | Some size => (Ok size, d)
                   | None => (Throw TypeError, d)
                   end
               | None => (Throw TypeError, d)
               end
           end.

(** [canvas.width = v] *)
Definition set_width (canvas : option nat) (v : nat) : D unit :=
  fun d => match canvas with
           | None => (Throw TypeError, d)
           | Some c =>
               match canvases d !! c with
               | Some el =>
                   (Ok tt, with_canvases
                             (<[c := {| cv_width := v; cv_height := cv_height el;
                                        cv_parent := cv_parent el;
                                        cv_context2d := cv_context2d el |}]>
                                (canvases d)) d)
               | None => (Throw TypeError, d)
               end
           end.

(** [canvas.height = v] *)
Definition set_height (canvas : option nat) (v : nat) : D unit :=
  fun d => match canvas with
           | None => (Throw TypeError, d)
           | Some c =>
               match canvases d !! c with
               | Some el =>
                   (Ok tt, with_canvases
                             (<[c := {| cv_width := cv_width el; cv_height := v;
                                        cv_parent := cv_parent el;
                                        cv_context2d := cv_context2d el |}]>
                                (canvases d)) d)
               | None => (Throw TypeError, d)
               end
           end.

(** The body of [updateCanvasSize], for the canvas the closure captured. *)
Definition updateCanvasSize (canvas : option nat) : D unit :=
  size_w <- parent_client canvas ;;
  set_width canvas (fst size_w) ;;
  size_h <- parent_client canvas ;;
  set_height canvas (snd size_h).

(** [const updateCanvasSize = () => {...}]: a new closure over [canvas]. *)
Definition new_updateCanvasSize (canvas : option nat) : D ResizeListener :=
  fun d => (Ok {| ls_closure := next_closure d; ls_canvas := canvas |},
            {| canvases := canvases d; canvasRef_current := canvasRef_current d;
               canvasCtxRef_current := canvasCtxRef_current d;
               resize_listeners := resize_listeners d;
               next_closure := Datatypes.S (next_closure d) |}).

Definition same_closure (f g : ResizeListener) : bool :=
  Nat.eqb (ls_closure f) (ls_closure g).

(** [window.addEventListener('resize', f)]: a function already registered
    is not registered again. *)
Definition addEventListener (f : ResizeListener) : D unit :=
  fun d => (Ok tt,
            if existsb (same_closure f) (resize_listeners d) then d
            else with_listeners (resize_listeners d ++ [f]) d).

(** [window.removeEventListener('resize', f)] *)
Definition removeEventListener (f : ResizeListener) : D unit :=
  fun d => (Ok tt,
            with_listeners
              (List.filter (fun g => negb (same_closure f g)) (resize_listeners d)) d).

(** The function passed to [useEffect]. *)
Definition useUpdateCanvasSize_effect (isMobile : bool) : D (option Cleanup) :=
  canvas <- read_canvasRef ;;
  canvasCtx <- getContext2d canvas ;;
  write_canvasCtxRef canvasCtx ;;
  f <- new_updateCanvasSize canvas ;;
  updateCanvasSize canvas ;;
  if negb isMobile then
    addEventListener f ;;
    dret (Some (RemoveResizeListener f))
  else dret None.

(** Calling what the effect returned ([undefined] on mobile). *)
Definition run_cleanup (c : option Cleanup) : D unit :=
  match c with
  | Some (RemoveResizeListener f) => removeEventListener f
  | None => dret tt
  end.

(** The hook: the effect and its dependency array
    [[isMobile, ...dependencies]]. *)
Definition useUpdateCanvasSize (isMobile : bool) (dependencies : list value)
  : D (option Cleanup) * list value :=
  (useUpdateCanvasSize_effect isMobile, VBool isMobile :: dependencies).

(** The window fires 'resize': the registered listeners run in order; an
    exception in one of them does not stop the others. *)
Fixpoint run_listeners (ls : list ResizeListener) (d : Dom) : Dom :=
  match ls with
  | [] => d
  | f :: rest => run_listeners rest (snd (updateCanvasSize (ls_canvas f) d))
  end.

Definition dispatch_resize (d : Dom) : Dom :=
  run_listeners (resize_listeners d) d.

(** The layout gives the parent of canvas [c] a new client size. *)
Definition layout_parent (c : nat) (size : nat * nat) (d : Dom) : Dom :=
  match canvases d !! c with
  | Some el =>
      with_canvases
        (<[c := {| cv_width := cv_width el; cv_height := cv_height el;
                   cv_parent := Some size; cv_context2d := cv_context2d el |}]>
           (canvases d)) d
  | None => d
  end.

(** Every registered closure was created before the next one to come. *)
Definition closures_fresh (d : Dom) : Prop :=
  Forall (fun f => ls_closure f < next_closure d) (resize_listeners d).


End CanvasSize.

(** A page with one canvas, 300 x 150, in a parent of 800 x 600. *)
Definition demo_dom : Dom :=
  {| canvases := {[ 0 := {| cv_width := 300; cv_height := 150;
                            cv_parent := Some (800, 600); cv_context2d := Some 5 |} ]};
     canvasRef_current := Some 0;
     canvasCtxRef_current := CtxUndefined;
     resize_listeners := [];
     next_closure := 0 |}.

(** The same page before the canvas is mounted: the ref is empty. *)
Definition demo_dom_unmounted : Dom :=
  {| canvases := ∅; canvasRef_current := None; canvasCtxRef_current := CtxNull;
     resize_listeners := []; next_closure := 0 |}.

(** ** Classes of events and names used in the statements *)

(** The five names [errorCase] has a branch for. *)
Definition is_stage_name (n : string) : bool :=
  existsb (String.eqb n)
    ["transactionError"; "objectStoreError"; "createError"; "indexError";
     "openCursorError"].

(** A call that writes a record. *)
Definition is_write (ev : Event) : bool :=
  match ev with
  | EvEngine (Add _ _ _) => true
  | EvEngine (Put _ _ _) => true
  | EvEngine (Delete _ _) => true
  | _ => false
  end.

Definition is_console_error (ev : Event) : bool :=
  match ev with EvConsole console_error _ _ => true | _ => false end.

(** Whether a failure of an acquisition went through a stage handler. *)
Definition reported (a : Acquired) : nat :=
  match a with
  | Failed (Some _) _ => 1
  | _ => 0
  end.

Section Properties.

Context {S : Type} {engine_S : Engine S}.

(** * Properties of the stage handlers *)

Lemma errorCase_tagged (n : ErrorName) (e : JsError) (w : World S) :
  errorCase (set_name (errorNameEnum n) e) w =
  (Throw (set_name (errorNameEnum n) e),
   observed [stage_diagnostic n (set_name (errorNameEnum n) e)] w).
Proof. destruct n; reflexivity. Qed.

Lemma errorHandlerGenerator_throw (n : ErrorName) A (action : M S A) E w w' :
  action w = (Throw E, w') ->
  errorHandlerGenerator n action w =
  (Throw (set_name (errorNameEnum n) E),
   observed [stage_diagnostic n (set_name (errorNameEnum n) E)] w').
Proof.
  intros Hact.
  unfold errorHandlerGenerator, customErrorBoundary, customErrorBoundaryGenerator,
    customErrHandlerGenerator, try_catch, throw.
  rewrite Hact. unfold bind. rewrite errorCase_tagged. reflexivity.
Qed.

Lemma errorHandlerGenerator_ok (n : ErrorName) A (action : M S A) v w w' :
  action w = (Ok v, w') ->
  errorHandlerGenerator n action w = (Ok v, w').
Proof.
  intros Hact.
  unfold errorHandlerGenerator, customErrorBoundary, customErrorBoundaryGenerator,
    customErrHandlerGenerator, try_catch.
  rewrite Hact. reflexivity.
Qed.

Lemma stage_handler_generator (n : ErrorName) A (action : M S A) :
  stage_handler n action = errorHandlerGenerator n action.
Proof. destruct n; reflexivity. Qed.

(** C1. For each of the five stage names, when the action throws [E] the
    corresponding stage handler throws too: the error it throws is [E] with
    the stage name attached (same message), and what it adds to the trace
    is exactly one event, the console.error diagnostic of that stage, whose
    text starts with the stage name and whose argument is that error. *)
Theorem stage_handler_reports_and_rethrows :
  forall (n : ErrorName) (A : Type) (action : M S A) (E : JsError) (w w' : World S),
    action w = (Throw E, w') ->
    exists e' w'',
      stage_handler n action w = (Throw e', w'') /\
      e' = set_name (errorNameEnum n) E /\
      err_message e' = err_message E /\
      err_name e' = errorNameEnum n /\
      trace w'' = trace w' ++ [EvConsole console_error
                                 (errorNameEnum n ++ " 이 발생했습니다")%string
                                 [VError e']] /\
      eng w'' = eng w' /\ promises w'' = promises w' /\ requests w'' = requests w'.
Proof.
  intros n A action E w w' Hact.
  eexists; eexists. rewrite stage_handler_generator.
  split; [apply (errorHandlerGenerator_throw n A action E w w' Hact)|].
  repeat split.
Qed.

(** C9. For every stage handler, when the action returns [v] the handler
    returns [v] and leaves the world as the action left it: the value is
    unchanged and nothing (in particular no diagnostic) is added to the
    trace. *)
Theorem stage_handler_identity_on_success :
  forall (n : ErrorName) (A : Type) (action : M S A) (v : A) (w w' : World S),
    action w = (Ok v, w') ->
    stage_handler n action w = (Ok v, w').
Proof.
  intros n A action v w w' Hact.
  rewrite stage_handler_generator.
  apply (errorHandlerGenerator_ok n A action v w w' Hact).
Qed.

(** * Promises settle once; callbacks never call the engine *)

Definition settled (st : PromiseState) : Prop :=
  match st with Pending => False | _ => True end.

Lemma settle_keeps_settled (p q : Promise) (st st' : PromiseState) (w : World S) :
  promises w !! p = Some st -> settled st ->
  promises (snd (settle q st' w)) !! p = Some st.
Proof.
  intros Hp Hst. unfold settle.
  destruct (promises w !! q) as [[| |]|] eqn:Hq; simpl; try exact Hp.
  destruct (decide (q = p)) as [->|Hne].
  - rewrite Hp in Hq. inversion Hq; subst. destruct Hst.
  - rewrite lookup_insert_ne by exact Hne. exact Hp.
Qed.

Lemma settle_trace (q : Promise) (st : PromiseState) (w : World S) :
  trace (snd (settle q st w)) = trace w.
Proof. unfold settle. destruct (promises w !! q) as [[| |]|]; reflexivity. Qed.

Lemma settle_returns (q : Promise) (st : PromiseState) (w : World S) :
  fst (settle q st w) = Ok tt.
Proof. unfold settle. destruct (promises w !! q) as [[| |]|]; reflexivity. Qed.

Lemma run_callback_keeps_settled (cb : Callback) (p : Promise) (st : PromiseState) (w : World S) :
  promises w !! p = Some st -> settled st ->
  promises (snd (run_callback cb w)) !! p = Some st.
Proof.
  intros Hp Hst.
  destruct cb as [q r|q r|q r|q|f|f|f|f]; simpl;
    unfold bind, read_result, read_error, resolve, reject, console, emit, invoke_optional;
    simpl; try (apply settle_keeps_settled; assumption);
    destruct f; simpl; exact Hp.
Qed.

Lemma run_callback_returns (cb : Callback) (w : World S) :
  fst (run_callback cb w) = Ok tt.
Proof.
  destruct cb as [q r|q r|q r|q|f|f|f|f]; simpl;
    unfold bind, read_result, read_error, resolve, reject, console, emit, invoke_optional;
    simpl; try apply settle_returns; destruct f; reflexivity.
Qed.

Lemma run_callback_no_engine (cb : Callback) (w : World S) :
  List.filter is_engine (trace (snd (run_callback cb w))) = List.filter is_engine (trace w).
Proof.
  destruct cb as [q r|q r|q r|q|f|f|f|f]; simpl;
    unfold bind, read_result, read_error, resolve, reject, console, emit, invoke_optional;
    simpl; try (rewrite settle_trace; reflexivity);
    destruct f; simpl; rewrite ?List.filter_app; simpl; rewrite ?app_nil_r; reflexivity.
Qed.

Lemma notify_keeps_settled (r : IDBRequest) (n : Notification) (p : Promise)
    (st : PromiseState) (w : World S) :
  promises w !! p = Some st -> settled st ->
  promises (snd (notify r n w)) !! p = Some st.
Proof.
  intros Hp Hst. unfold notify.
  destruct n; simpl.
  - destruct (req_onsuccess (request_obj w r)); simpl; [|exact Hp].
    apply run_callback_keeps_settled; assumption.
  - destruct (req_onerror (request_obj w r)); simpl; [|exact Hp].
    apply run_callback_keeps_settled; assumption.
Qed.

Lemma notify_no_engine (r : IDBRequest) (n : Notification) (w : World S) :
  List.filter is_engine (trace (snd (notify r n w))) = List.filter is_engine (trace w).
Proof.
  unfold notify. destruct n; simpl.
  - destruct (req_onsuccess (request_obj w r)); simpl; [|reflexivity].
    rewrite run_callback_no_engine. reflexivity.
  - destruct (req_onerror (request_obj w r)); simpl; [|reflexivity].
    rewrite run_callback_no_engine. reflexivity.
Qed.

Lemma deliver_keeps_settled (ns : list (IDBRequest * Notification)) :
  forall (p : Promise) (st : PromiseState) (w : World S),
    promises w !! p = Some st -> settled st ->
    promises (deliver ns w) !! p = Some st.
Proof.
  induction ns as [|[r n] rest IH]; intros p st w Hp Hst; simpl.
  - exact Hp.
  - apply IH; [|exact Hst]. apply notify_keeps_settled; assumption.
Qed.

Lemma deliver_no_engine (ns : list (IDBRequest * Notification)) :
  forall w : World S,
    List.filter is_engine (trace (deliver ns w)) = List.filter is_engine (trace w).
Proof.
  induction ns as [|[r n] rest IH]; intros w; simpl.
  - reflexivity.
  - rewrite IH. apply notify_no_engine.
Qed.

(** * Operations without a database handle *)

Lemma getValue_no_handle (prm : GetValueParams) (w : World S) :
  getValue None prm w =
  (Ok (next_promise w),
   {| eng := eng w; trace := trace w;
      promises := <[next_promise w := Fulfilled VUndefined]>
                    (<[next_promise w := Pending]> (promises w));
      next_promise := Datatypes.S (next_promise w); requests := requests w |}).
Proof.
  unfold getValue, new_Promise, try_catch, resolve, settle. simpl.
  rewrite lookup_insert_eq. reflexivity.
Qed.

Lemma getLastValueFromTable_no_handle (tableName indexing : string) (w : World S) :
  getLastValueFromTable None tableName indexing w =
  (Ok (next_promise w),
   {| eng := eng w; trace := trace w;
      promises := <[next_promise w := Fulfilled VUndefined]>
                    (<[next_promise w := Pending]> (promises w));
      next_promise := Datatypes.S (next_promise w); requests := requests w |}).
Proof.
  unfold getLastValueFromTable, new_Promise, try_catch, resolve, settle. simpl.
  rewrite lookup_insert_eq. reflexivity.
Qed.

(** C2 (amended). Without a handle every operation ends early and calls the
    engine not at all: [getDatabase] returns the absent handle; [getValue]
    and [getLastValueFromTable] return a promise fulfilled with [undefined],
    the trace unchanged; [destroyDatabase] warns and returns; [deleteTable],
    [saveValue] and [deleteValue] log one console.error and return; and
    [createTable] does so when the handle it works on is null, that is when
    its [db] argument is omitted and the current handle is null, or when
    [db] is passed as null.  None of them throws. *)
Theorem no_handle_early_outcome :
  forall (indexing_memo : string) (dbName : option string) (w : World S),
    getDatabase None w = (Ok None, w) /\
    (forall prm, exists p w',
        getValue None prm w = (Ok p, w') /\
        promises w' !! p = Some (Fulfilled VUndefined) /\
        trace w' = trace w /\ eng w' = eng w /\ requests w' = requests w) /\
    (forall tableName indexing, exists p w',
        getLastValueFromTable None tableName indexing w = (Ok p, w') /\
        promises w' !! p = Some (Fulfilled VUndefined) /\
        trace w' = trace w /\ eng w' = eng w /\ requests w' = requests w) /\
    destroyDatabase dbName None w =
      (Ok None, observed [EvConsole console_warn "no database" []] w) /\
    (forall tableName,
        createTable indexing_memo None tableName None w =
          (Ok None, observed [EvConsole console_error "no database" []] w)) /\
    (forall tableName database,
        createTable indexing_memo database tableName (Some None) w =
          (Ok None, observed [EvConsole console_error "no database" []] w)) /\
    (forall tableName,
        deleteTable None tableName w =
          (Ok tt, observed [EvConsole console_error "no database" []] w)) /\
    (forall prm,
        saveValue None prm w =
          (Ok tt, observed [EvConsole console_error "no database" []] w)) /\
    (forall prm,
        deleteValue None prm w =
          (Ok tt, observed [EvConsole console_error "no database" []] w)).
Proof.
  intros indexing_memo dbName w.
  split; [reflexivity|].
  split.
  { intros prm. eexists; eexists. split; [apply getValue_no_handle|].
    simpl. rewrite lookup_insert_eq. repeat split. }
  split.
  { intros tableName indexing. eexists; eexists.
    split; [apply getLastValueFromTable_no_handle|].
    simpl. rewrite lookup_insert_eq. repeat split. }
  repeat split.
Qed.

(** C3. [getValue] without a handle returns (it does not throw) a promise
    that is fulfilled with [undefined], and no later notification of the
    engine changes that: the promise is never rejected. *)
Theorem getValue_no_handle_resolves_undefined :
  forall (prm : GetValueParams) (w : World S),
  exists p w',
    getValue None prm w = (Ok p, w') /\
    promises w' !! p = Some (Fulfilled VUndefined) /\
    forall ns : list (IDBRequest * Notification),
      promises (deliver ns w') !! p = Some (Fulfilled VUndefined).
Proof.
  intros prm w. eexists; eexists.
  split; [apply getValue_no_handle|].
  assert (H : forall (ps : gmap nat PromiseState) (x : nat),
             (<[x := Fulfilled VUndefined]> (<[x := Pending]> ps)) !! x
             = Some (Fulfilled VUndefined)).
  { intros ps x. apply lookup_insert_eq. }
  split; [apply H|].
  intros ns. apply deliver_keeps_settled; [apply H|exact I].
Qed.

(** C10. [getValue] never consults [indexing]: two invocations that agree
    on the handle, the table name and the key give the same result in the
    same world (the same engine calls, the same request, the same promise),
    whatever their [indexing]. *)
Theorem getValue_ignores_indexing :
  forall (database : option IDBDatabase) (tableName : string) (key : value)
         (indexing1 indexing2 : option string) (w : World S),
    getValue database (mkGetValueParams tableName indexing1 key) w =
    getValue database (mkGetValueParams tableName indexing2 key) w.
Proof. intros. reflexivity. Qed.

(** * Operations with a database handle *)

Lemma handled_call (n : ErrorName) A (c : EngineCall A) (w : World S) :
  errorHandlerGenerator n (call c) w =
  match engine A c (eng w) with
  | (Ok v, s') => (Ok v, called c s' w)
  | (Throw e, s') =>
      (Throw (set_name (errorNameEnum n) e),
       observed [stage_diagnostic n (set_name (errorNameEnum n) e)] (called c s' w))
  end.
Proof.
  destruct (engine A c (eng w)) as [[v|e] s'] eqn:He.
  - apply errorHandlerGenerator_ok. unfold call. rewrite He. reflexivity.
  - apply errorHandlerGenerator_throw. unfold call. rewrite He. reflexivity.
Qed.

Lemma caught_message (stage : option ErrorName) (e : JsError) :
  err_message (caught stage e) = err_message e.
Proof. destruct stage; reflexivity. Qed.

Lemma handled (n : ErrorName) A (action : M S A) (w : World S) :
  errorHandlerGenerator n action w =
  match action w with
  | (Ok v, w') => (Ok v, w')
  | (Throw e, w') =>
      (Throw (set_name (errorNameEnum n) e),
       observed [stage_diagnostic n (set_name (errorNameEnum n) e)] w')
  end.
Proof.
  destruct (action w) as [[v|e] w'] eqn:Ha.
  - apply errorHandlerGenerator_ok. exact Ha.
  - apply errorHandlerGenerator_throw. exact Ha.
Qed.

Ltac answer :=
  match goal with
  | |- context [engine ?A ?c ?s] =>
      let v := fresh "h" in let e := fresh "e" in let s' := fresh "s" in
      destruct (engine A c s) as [[v|e] s']
  end.

Ltac settle_fresh :=
  unfold reject, resolve, settle; simpl; rewrite ?lookup_insert_eq; simpl.

(** C4. With a handle, [getValue] and [getLastValueFromTable] always return
    a promise (no exception escapes to the caller), and whenever a call of
    the acquisition sequence throws, wrapped by a stage handler or not, the
    promise is rejected with [{reason: 'uncaught error', err}], where [err]
    is the error the catch clause received: the engine's error, carrying
    the stage name when a stage handler re-threw it.  When nothing throws
    the promise is left pending. *)
Theorem read_sync_throw_rejects_uncaught :
  forall (db : IDBDatabase) (w : World S),
    (forall prm, exists p w',
        getValue (Some db) prm w = (Ok p, w') /\
        promises w' !! p =
          Some match getValue_acquisition db prm (eng w) with
               | Failed stage e =>
                   Rejected (VObj [("reason", VStr "uncaught error");
                                   ("err", VError (caught stage e))])
               | Issued _ => Pending
               end) /\
    (forall tableName indexing, exists p w',
        getLastValueFromTable (Some db) tableName indexing w = (Ok p, w') /\
        promises w' !! p =
          Some match getLastValue_acquisition db tableName indexing (eng w) with
               | Failed stage e =>
                   Rejected (VObj [("reason", VStr "uncaught error");
                                   ("err", VError (caught stage e))])
               | Issued _ => Pending
               end).
Proof.
  intros db w. split.
  - intros prm.
    unfold getValue, new_Promise, try_catch, bind, handleTransactionErr,
      handleObjectStoreErr, getValue_acquisition.
    rewrite handled_call; simpl eng. answer.
    + rewrite handled_call; simpl eng. answer.
      * unfold call at 1; simpl eng. answer; settle_fresh;
          eexists; eexists; (split; [reflexivity|]); simpl; apply lookup_insert_eq.
      * settle_fresh. eexists; eexists; (split; [reflexivity|]); simpl; apply lookup_insert_eq.
    + settle_fresh. eexists; eexists; (split; [reflexivity|]); simpl; apply lookup_insert_eq.
  - intros tableName indexing.
    unfold getLastValueFromTable, new_Promise, try_catch, bind, handleTransactionErr,
      handleObjectStoreErr, handleIndexErr, handleOpenCursorErr, getLastValue_acquisition.
    rewrite handled_call; simpl eng. answer.
    + rewrite handled_call; simpl eng. answer.
      * rewrite handled_call; simpl eng. answer.
        -- rewrite handled. unfold bind, call; simpl eng. answer; settle_fresh;
             eexists; eexists; (split; [reflexivity|]); simpl; apply lookup_insert_eq.
        -- settle_fresh. eexists; eexists; (split; [reflexivity|]); simpl; apply lookup_insert_eq.
      * settle_fresh. eexists; eexists; (split; [reflexivity|]); simpl; apply lookup_insert_eq.
    + settle_fresh. eexists; eexists; (split; [reflexivity|]); simpl; apply lookup_insert_eq.
Qed.

(** * The cursor read *)

Lemma advance_is_engine (l : list Event) :
  List.filter is_cursor_advance (List.filter is_engine l) = List.filter is_cursor_advance l.
Proof.
  induction l as [|ev l IH]; [reflexivity|].
  destruct ev as [lvl t a|A c|f]; simpl; try exact IH.
  destruct c; simpl; rewrite IH; reflexivity.
Qed.

Lemma deliver_no_advance (ns : list (IDBRequest * Notification)) (w : World S) :
  List.filter is_cursor_advance (trace (deliver ns w)) = List.filter is_cursor_advance (trace w).
Proof.
  rewrite <- (advance_is_engine (trace (deliver ns w))), deliver_no_engine.
  apply advance_is_engine.
Qed.

Lemma cursor_success_settles (p : Promise) (cursor : IDBRequest) (result : value)
    (w : World S) :
  promises w !! p = Some Pending ->
  req_onsuccess (request_obj w cursor) = Some (CbCursorSuccess p cursor) ->
  promises (snd (notify cursor (NSuccess result) w)) !! p
  = Some (Fulfilled (optional_member result "value")).
Proof.
  intros Hp Hcb. unfold notify. rewrite Hcb. simpl.
  unfold bind, read_result, request_obj, resolve, settle. simpl.
  rewrite lookup_insert_eq, Hp. simpl. apply lookup_insert_eq.
Qed.

Lemma cursor_error_settles (p : Promise) (cursor : IDBRequest) (error : value)
    (w : World S) :
  promises w !! p = Some Pending ->
  req_onerror (request_obj w cursor) = Some (CbCursorError p) ->
  promises (snd (notify cursor (NError error) w)) !! p
  = Some (Rejected (VError (new_Error
            "Failed to retrieve last value from object store"))).
Proof.
  intros Hp Hcb. unfold notify. rewrite Hcb. simpl.
  unfold reject, settle. simpl. rewrite Hp. simpl. apply lookup_insert_eq.
Qed.

(** C6. With a handle, when the acquisitions succeed and the engine hands
    out the cursor request, [getLastValueFromTable] returns a pending
    promise.  If the first notification of the cursor request is a success
    with result [result], the promise is fulfilled with [result?.value]: the
    value at the cursor position when there is one, [undefined] when the
    result is null.  If it is an error, the promise is rejected with the
    fixed Error.  Whatever is notified afterwards does not change the
    outcome, and neither the operation nor any callback advances the
    cursor. *)
Theorem getLastValueFromTable_first_notification :
  forall (db : IDBDatabase) (tableName indexing : string) (w : World S)
         (cursor : IDBRequest),
    getLastValue_acquisition db tableName indexing (eng w) = Issued cursor ->
    exists p w',
      getLastValueFromTable (Some db) tableName indexing w = (Ok p, w') /\
      promises w' !! p = Some Pending /\
      (forall result ns,
          promises (deliver ((cursor, NSuccess result) :: ns) w') !! p
          = Some (Fulfilled (optional_member result "value"))) /\
      (forall fields ns,
          promises (deliver ((cursor, NSuccess (VObj fields)) :: ns) w') !! p
          = Some (Fulfilled (lookup_field "value" fields))) /\
      (forall ns,
          promises (deliver ((cursor, NSuccess VNull) :: ns) w') !! p
          = Some (Fulfilled VUndefined)) /\
      (forall error ns,
          promises (deliver ((cursor, NError error) :: ns) w') !! p
          = Some (Rejected (VError (new_Error
                    "Failed to retrieve last value from object store")))) /\
      (forall ns,
          List.filter is_cursor_advance (trace (deliver ns w'))
          = List.filter is_cursor_advance (trace w)).
Proof.
  intros db tableName indexing w cursor.
  unfold getLastValueFromTable, new_Promise, try_catch, bind, handleTransactionErr,
    handleObjectStoreErr, handleIndexErr, handleOpenCursorErr, getLastValue_acquisition.
  rewrite handled_call; simpl eng. answer; [|discriminate].
  rewrite handled_call; simpl eng. answer; [|discriminate].
  rewrite handled_call; simpl eng. answer; [|discriminate].
  rewrite handled. unfold bind, call; simpl eng. answer; [|discriminate].
  intros Hc; inversion Hc; subst; clear Hc. simpl.
  eexists; eexists. split; [reflexivity|].
  match goal with
  | |- promises ?w' !! ?p = _ /\ _ =>
      assert (Hp : promises w' !! p = Some Pending)
        by (simpl; apply lookup_insert_eq);
      assert (Hok : req_onsuccess (request_obj w' cursor) = Some (CbCursorSuccess p cursor))
        by (unfold request_obj; simpl; rewrite !lookup_insert_eq; reflexivity);
      assert (Herr : req_onerror (request_obj w' cursor) = Some (CbCursorError p))
        by (unfold request_obj; simpl; rewrite !lookup_insert_eq; reflexivity);
      assert (Hs : forall result ns,
                 promises (deliver ((cursor, NSuccess result) :: ns) w') !! p
                 = Some (Fulfilled (optional_member result "value")))
        by (intros result ns; simpl deliver;
            apply deliver_keeps_settled; [|exact I];
            apply cursor_success_settles; assumption)
  end.
  split; [exact Hp|].
  split; [exact Hs|].
  split; [intros fields ns; apply (Hs (VObj fields) ns)|].
  split; [intros ns; apply (Hs VNull ns)|].
  split.
  - intros error ns. simpl deliver. apply deliver_keeps_settled; [|exact I].
    apply cursor_error_settles; assumption.
  - intros ns. rewrite deliver_no_advance. simpl.
    rewrite !List.filter_app. simpl. rewrite !app_nil_r. reflexivity.
Qed.

(** * The write operations *)

Lemma save_error_callback (onError : option UserCallback) (request : IDBRequest)
    (error : value) (w : World S) :
  req_onerror (request_obj w request) = Some (CbSaveError onError) ->
  exists w',
    notify request (NError error) w = (Ok tt, w') /\
    promises w' = promises w /\
    trace w' = trace w ++ EvConsole console_error "no suffient space to save data" []
                          :: invoked onError.
Proof.
  intros Hcb. unfold notify. rewrite Hcb. simpl.
  unfold bind, console, emit, invoke_optional. simpl.
  destruct onError as [f|]; simpl; eexists; (split; [reflexivity|]); simpl.
  - split; [reflexivity|]. rewrite <- app_assoc. reflexivity.
  - split; [reflexivity|]. reflexivity.
Qed.

Lemma delete_error_callback (onError : option UserCallback) (request : IDBRequest)
    (error : value) (w : World S) :
  req_onerror (request_obj w request) = Some (CbDeleteError onError) ->
  exists w',
    notify request (NError error) w = (Ok tt, w') /\
    promises w' = promises w /\
    trace w' = trace w ++ invoked onError.
Proof.
  intros Hcb. unfold notify. rewrite Hcb. simpl.
  unfold invoke_optional, emit, ret.
  destruct onError as [f|]; simpl; eexists; (split; [reflexivity|]); simpl.
  - split; reflexivity.
  - split; [reflexivity|]. rewrite app_nil_r. reflexivity.
Qed.

Local Arguments notify : simpl never.

Ltac by_callback lem :=
  match goal with
  | |- context [notify ?r (NError ?err) ?w'] =>
      let w'' := fresh "w" in
      let Hn := fresh "Hn" in let Hp := fresh "Hp" in let Ht := fresh "Ht" in
      destruct (lem r err w') as [w'' [Hn [Hp Ht]]];
      [unfold request_obj; simpl; rewrite !lookup_insert_eq; reflexivity
      |exists w''; split; [exact Hn|]; split; [exact Hp|exact Ht]]
  end.

(** C5 (amended). With a handle, [saveValue] and [deleteValue] always
    return normally and create or reject no promise.  When a call of the
    setup throws, no callback is registered and the run ends with
    console.log('uncaught error', err); everything observed before it is an
    engine call or a console diagnostic.  When the request is issued and the
    engine later notifies an error on it, nothing is thrown and no promise
    changes: [deleteValue] invokes [onError] when it is present and does
    nothing otherwise; [saveValue] first emits the console.error
    'no suffient space to save data', in both cases, and then invokes
    [onError] when it is present. *)
Theorem write_sync_throw_logged_only :
  forall (db : IDBDatabase) (w : World S),
    (forall prm, exists w',
        saveValue (Some db) prm w = (Ok tt, w') /\
        promises w' = promises w /\ next_promise w' = next_promise w /\
        match saveValue_acquisition db prm (eng w) with
        | Failed stage e =>
            requests w' = requests w /\
            exists evs,
              trace w' = trace w ++ evs ++
                           [EvConsole console_log "uncaught error" [VError (caught stage e)]] /\
              forallb (fun ev => is_engine ev || is_console ev) evs = true
        | Issued request =>
            forall error, exists w'',
              notify request (NError error) w' = (Ok tt, w'') /\
              promises w'' = promises w' /\
              trace w'' = trace w' ++
                            EvConsole console_error "no suffient space to save data" []
                            :: invoked (sv_onError prm)
        end) /\
    (forall prm, exists w',
        deleteValue (Some db) prm w = (Ok tt, w') /\
        promises w' = promises w /\ next_promise w' = next_promise w /\
        match deleteValue_acquisition db prm (eng w) with
        | Failed stage e =>
            requests w' = requests w /\
            exists evs,
              trace w' = trace w ++ evs ++
                           [EvConsole console_log "uncaught error" [VError (caught stage e)]] /\
              forallb (fun ev => is_engine ev || is_console ev) evs = true
        | Issued request =>
            forall error, exists w'',
              notify request (NError error) w' = (Ok tt, w'') /\
              promises w'' = promises w' /\
              trace w'' = trace w' ++ invoked (dv_onError prm)
        end).
Proof.
  intros db w. split.
  - intros prm.
    unfold saveValue, try_catch, bind, handleTransactionErr, handleObjectStoreErr,
      handleCreateErr, saveValue_acquisition.
    rewrite handled_call; simpl eng. answer.
    + rewrite handled_call; simpl eng. answer.
      * rewrite handled.
        assert (Hissue :
          (match sv_type prm with
           | put => call (Put h0 (sv_value prm) (sv_key prm))
           | add => call (Add h0 (sv_value prm) (sv_key prm))
           end) = call (match sv_type prm with
                        | put => Put h0 (sv_value prm) (sv_key prm)
                        | add => Add h0 (sv_value prm) (sv_key prm)
                        end)) by (destruct (sv_type prm); reflexivity).
        rewrite Hissue. unfold call at 1; simpl eng. answer.
        -- simpl. eexists; split; [reflexivity|]. simpl.
           split; [reflexivity|]. split; [reflexivity|].
           intros error. by_callback (save_error_callback (sv_onError prm)).
        -- eexists; split; [reflexivity|]. simpl.
           split; [reflexivity|]. split; [reflexivity|].
           split; [reflexivity|].
           eexists [_; _; _; _]. split; [rewrite <- ?app_assoc; reflexivity|].
           simpl. destruct (sv_type prm); reflexivity.
      * eexists; split; [reflexivity|]. simpl.
        split; [reflexivity|]. split; [reflexivity|].
        split; [reflexivity|].
        eexists [_; _; _]. split; [rewrite <- ?app_assoc; reflexivity|reflexivity].
    + eexists; split; [reflexivity|]. simpl.
      split; [reflexivity|]. split; [reflexivity|].
      split; [reflexivity|].
      eexists [_; _]. split; [rewrite <- ?app_assoc; reflexivity|reflexivity].
  - intros prm.
    unfold deleteValue, try_catch, bind, handleTransactionErr, handleObjectStoreErr,
      deleteValue_acquisition.
    rewrite handled_call; simpl eng. answer.
    + rewrite handled_call; simpl eng. answer.
      * unfold call at 1; simpl eng. answer.
        -- simpl. eexists; split; [reflexivity|]. simpl.
           split; [reflexivity|]. split; [reflexivity|].
           intros error. by_callback (delete_error_callback (dv_onError prm)).
        -- eexists; split; [reflexivity|]. simpl.
           split; [reflexivity|]. split; [reflexivity|].
           split; [reflexivity|].
           eexists [_; _; _]. split; [rewrite <- ?app_assoc; reflexivity|reflexivity].
      * eexists; split; [reflexivity|]. simpl.
        split; [reflexivity|]. split; [reflexivity|].
        split; [reflexivity|].
        eexists [_; _; _]. split; [rewrite <- ?app_assoc; reflexivity|reflexivity].
    + eexists; split; [reflexivity|]. simpl.
      split; [reflexivity|]. split; [reflexivity|].
      split; [reflexivity|].
      eexists [_; _]. split; [rewrite <- ?app_assoc; reflexivity|reflexivity].
Qed.

Lemma save_success_callback (onSuccess : option UserCallback) (request : IDBRequest)
    (result : value) (w : World S) :
  req_onsuccess (request_obj w request) = Some (CbSaveSuccess onSuccess) ->
  exists w',
    notify request (NSuccess result) w = (Ok tt, w') /\
    promises w' = promises w /\
    trace w' = trace w ++ EvConsole console_log "save success" [] :: invoked onSuccess.
Proof.
  intros Hcb. unfold notify. rewrite Hcb. simpl.
  unfold bind, console, emit, invoke_optional. simpl.
  destruct onSuccess as [f|]; simpl; eexists; (split; [reflexivity|]); simpl.
  - split; [reflexivity|]. rewrite <- app_assoc. reflexivity.
  - split; [reflexivity|]. reflexivity.
Qed.

(** C7. With a handle, once the transaction and the table are acquired,
    [saveValue] issues exactly one request on the table: [add] when the
    declared type is 'add', [put] otherwise.  The record-create handler
    covers the issuing only: when the call that issues the request throws,
    the createError diagnostic is emitted (followed by the log of the catch
    clause); when the request is returned, its later success or error
    notification only runs the function assigned to [onsuccess] or
    [onerror] (a console line, then the caller's callback when present): no
    stage diagnostic is emitted and nothing is thrown. *)
Theorem saveValue_issues_add_or_put :
  forall (db : IDBDatabase) (prm : SaveValueParams) (w : World S)
         (transaction : IDBTransaction) (s1 : S) (table : IDBObjectStore) (s2 : S),
    engine _ (Transaction db (sv_tableName prm) readwrite) (eng w) = (Ok transaction, s1) ->
    engine _ (ObjectStore transaction (sv_tableName prm)) s1 = (Ok table, s2) ->
    let issue := match sv_type prm with
                 | add => Add table (sv_value prm) (sv_key prm)
                 | put => Put table (sv_value prm) (sv_key prm)
                 end in
    exists w',
      saveValue (Some db) prm w = (Ok tt, w') /\
      List.filter is_engine (trace w') =
        List.filter is_engine (trace w) ++
          [EvEngine (Transaction db (sv_tableName prm) readwrite);
           EvEngine (ObjectStore transaction (sv_tableName prm));
           EvEngine issue] /\
      match engine _ issue s2 with
      | (Throw e, _) =>
          trace w' = trace w ++
            [EvEngine (Transaction db (sv_tableName prm) readwrite);
             EvEngine (ObjectStore transaction (sv_tableName prm));
             EvEngine issue;
             EvConsole console_error "createError 이 발생했습니다"
               [VError (set_name "createError" e)];
             EvConsole console_log "uncaught error" [VError (set_name "createError" e)]]
      | (Ok request, _) =>
          trace w' = trace w ++
            [EvEngine (Transaction db (sv_tableName prm) readwrite);
             EvEngine (ObjectStore transaction (sv_tableName prm));
             EvEngine issue] /\
          (forall result, exists w'',
              notify request (NSuccess result) w' = (Ok tt, w'') /\
              trace w'' = trace w' ++
                EvConsole console_log "save success" [] :: invoked (sv_onSuccess prm)) /\
          (forall error, exists w'',
              notify request (NError error) w' = (Ok tt, w'') /\
              trace w'' = trace w' ++
                EvConsole console_error "no suffient space to save data" []
                :: invoked (sv_onError prm))
      end.
Proof.
  intros db prm w transaction s1 table s2 Htx Hstore issue.
  unfold saveValue, try_catch, bind, handleTransactionErr, handleObjectStoreErr,
    handleCreateErr.
  rewrite handled_call, Htx; cbv beta iota.
  rewrite handled_call; simpl eng; rewrite Hstore; cbv beta iota.
  rewrite handled.
  assert (Hissue :
    (match sv_type prm with
     | put => call (Put table (sv_value prm) (sv_key prm))
     | add => call (Add table (sv_value prm) (sv_key prm))
     end) = call issue) by (unfold issue; destruct (sv_type prm); reflexivity).
  rewrite Hissue. unfold call at 1; simpl eng.
  assert (Hfilter : is_engine (EvEngine issue) = true) by reflexivity.
  destruct (engine _ issue s2) as [[request|e] s3].
  - eexists; split; [reflexivity|]. simpl.
    split; [rewrite !List.filter_app; simpl; rewrite <- !app_assoc; reflexivity|].
    split; [rewrite <- !app_assoc; reflexivity|].
    split.
    + intros result.
      match goal with
      | |- context [notify ?r (NSuccess ?v) ?w'] =>
          destruct (save_success_callback (sv_onSuccess prm) r v w') as [w'' [Hn [_ Ht]]];
          [unfold request_obj; simpl; rewrite lookup_insert_eq; simpl;
           rewrite lookup_insert_eq; reflexivity
          |exists w''; split; [exact Hn|exact Ht]]
      end.
    + intros error.
      match goal with
      | |- context [notify ?r (NError ?v) ?w'] =>
          destruct (save_error_callback (sv_onError prm) r v w') as [w'' [Hn [_ Ht]]];
          [unfold request_obj; simpl; rewrite !lookup_insert_eq; reflexivity
          |exists w''; split; [exact Hn|exact Ht]]
      end.
  - eexists; split; [reflexivity|]. simpl.
    split; [rewrite !List.filter_app; simpl; rewrite <- !app_assoc; reflexivity|].
    rewrite <- !app_assoc. reflexivity.
Qed.

(** * Creating a table *)

(** C8. On the handle it works on, when the engine reports that a table of
    the given name exists, [createTable] returns [undefined] without
    throwing and does nothing but that query: no object store and no index
    is created.  In every run, a schema mutation happens only when the
    engine answered that the table does not exist; so when a first call has
    created the table and the engine then reports it, a second call with the
    same name mutates nothing. *)
Theorem createTable_idempotent :
  forall (indexing_memo : string) (database : option IDBDatabase) (tableName : string)
         (db_arg : option (option IDBDatabase)) (db : IDBDatabase) (w : World S),
    match db_arg with Some d => d | None => database end = Some db ->
    (forall s1,
        engine _ (Contains db tableName) (eng w) = (Ok true, s1) ->
        createTable indexing_memo database tableName db_arg w
        = (Ok None, called (Contains db tableName) s1 w)) /\
    (exists evs,
        trace (snd (createTable indexing_memo database tableName db_arg w))
        = trace w ++ evs /\
        (existsb is_schema_mutation evs = true ->
         exists s1, engine _ (Contains db tableName) (eng w) = (Ok false, s1))) /\
    (forall r1 w1 s2,
        createTable indexing_memo database tableName db_arg w = (Ok (Some r1), w1) ->
        engine _ (Contains db tableName) (eng w1) = (Ok true, s2) ->
        createTable indexing_memo database tableName db_arg w1
        = (Ok None, called (Contains db tableName) s2 w1)).
Proof.
  intros indexing_memo database tableName db_arg db w Hdb.
  assert (Hexists : forall (w0 : World S) s1,
             engine _ (Contains db tableName) (eng w0) = (Ok true, s1) ->
             createTable indexing_memo database tableName db_arg w0
             = (Ok None, called (Contains db tableName) s1 w0)).
  { intros w0 s1 Hc. unfold createTable. rewrite Hdb.
    unfold bind, call. rewrite Hc. reflexivity. }
  split; [apply Hexists|].
  split.
  - unfold createTable. rewrite Hdb. unfold bind, call at 1.
    destruct (engine _ (Contains db tableName) (eng w)) as [[[|]|e] s1].
    + exists [EvEngine (Contains db tableName)]. split; [reflexivity|].
      intros Hm. discriminate Hm.
    + simpl. unfold call at 1. simpl eng.
      destruct (engine _ (CreateObjectStore db tableName indexing_memo) s1)
        as [[store|e] s2].
      * unfold call. simpl eng.
        destruct (engine _ (CreateIndex store indexing_memo indexing_memo true) s2)
          as [[index|e] s3]; simpl;
          (eexists [_; _; _]; split; [rewrite <- !app_assoc; reflexivity|]);
          intros _; exists s1; reflexivity.
      * simpl. eexists [_; _]. split; [rewrite <- !app_assoc; reflexivity|].
        intros _; exists s1; reflexivity.
    + exists [EvEngine (Contains db tableName)]. split; [reflexivity|].
      intros Hm. discriminate Hm.
  - intros r1 w1 s2 _ Hc. apply Hexists. exact Hc.
Qed.

(** * Further properties of Error/indexedDB.ts *)

Lemma observed_nil (w : World S) : observed [] w = w.
Proof. destruct w; unfold observed; simpl. rewrite app_nil_r. reflexivity. Qed.

(** X1. [errorCase] re-throws the error it is given, unchanged, whatever
    its name; it emits one console.error, carrying the name and the error,
    when the name is one of the five stage names, and nothing otherwise. *)
Theorem errorCase_always_rethrows :
  forall (err : JsError) (w : World S),
    errorCase err w =
    (Throw err,
     observed (if is_stage_name (err_name err)
               then [EvConsole console_error
                       (err_name err ++ " 이 발생했습니다")%string [VError err]]
               else []) w).
Proof.
  intros [n m] w.
  unfold is_stage_name, errorCase, bind, when, ret, throw, console, emit. simpl.
  destruct (String.eqb_spec n "transactionError") as [->|_]; [reflexivity|].
  destruct (String.eqb_spec n "objectStoreError") as [->|_]; [reflexivity|].
  destruct (String.eqb_spec n "createError") as [->|_]; [reflexivity|].
  destruct (String.eqb_spec n "indexError") as [->|_]; [reflexivity|].
  destruct (String.eqb_spec n "openCursorError") as [->|_]; [reflexivity|].
  simpl. rewrite observed_nil. reflexivity.
Qed.

(** * Further properties of hooks/useIndexedDB.ts *)

Lemma get_success_settles (p : Promise) (request : IDBRequest) (result : value)
    (w : World S) :
  promises w !! p = Some Pending ->
  req_onsuccess (request_obj w request) = Some (CbGetValueSuccess p request) ->
  promises (snd (notify request (NSuccess result) w)) !! p = Some (Fulfilled result).
Proof.
  intros Hp Hcb. unfold notify. rewrite Hcb. simpl.
  unfold bind, read_result, request_obj, resolve, settle. simpl.
  rewrite lookup_insert_eq, Hp. simpl. apply lookup_insert_eq.
Qed.

Lemma get_error_settles (p : Promise) (request : IDBRequest) (error : value)
    (w : World S) :
  promises w !! p = Some Pending ->
  req_onerror (request_obj w request) = Some (CbGetValueError p request) ->
  promises (snd (notify request (NError error) w)) !! p = Some (Rejected error).
Proof.
  intros Hp Hcb. unfold notify. rewrite Hcb. simpl.
  unfold bind, read_error, request_obj, reject, settle. simpl.
  rewrite lookup_insert_eq, Hp. simpl. apply lookup_insert_eq.
Qed.

(** X2. With a handle, when the acquisitions succeed and [table.get]
    returns its request, [getValue] returns a pending promise that the
    first notification of that request settles: a success fulfils it with
    the request's result ([undefined] for a missing key included), an error
    rejects it with the request's error as it is, not wrapped in the
    'uncaught error' envelope.  Later notifications do not change the
    outcome, and no notification makes the layer call the engine. *)
Theorem getValue_first_notification :
  forall (db : IDBDatabase) (prm : GetValueParams) (w : World S) (request : IDBRequest),
    getValue_acquisition db prm (eng w) = Issued request ->
    exists p w',
      getValue (Some db) prm w = (Ok p, w') /\
      promises w' !! p = Some Pending /\
      (forall result ns,
          promises (deliver ((request, NSuccess result) :: ns) w') !! p
          = Some (Fulfilled result)) /\
      (forall error ns,
          promises (deliver ((request, NError error) :: ns) w') !! p
          = Some (Rejected error)) /\
      (forall ns,
          List.filter is_engine (trace (deliver ns w')) = List.filter is_engine (trace w')).
Proof.
  intros db prm w request.
  unfold getValue, new_Promise, try_catch, bind, handleTransactionErr,
    handleObjectStoreErr, getValue_acquisition.
  rewrite handled_call; simpl eng. answer; [|discriminate].
  rewrite handled_call; simpl eng. answer; [|discriminate].
  unfold call at 1; simpl eng. answer; [|discriminate].
  intros Hc; inversion Hc; subst; clear Hc. simpl.
  eexists; eexists. split; [reflexivity|].
  match goal with
  | |- promises ?w' !! ?p = _ /\ _ =>
      assert (Hp : promises w' !! p = Some Pending)
        by (simpl; apply lookup_insert_eq);
      assert (Hok : req_onsuccess (request_obj w' request)
                    = Some (CbGetValueSuccess p request))
        by (unfold request_obj; simpl; rewrite !lookup_insert_eq; reflexivity);
      assert (Herr : req_onerror (request_obj w' request)
                     = Some (CbGetValueError p request))
        by (unfold request_obj; simpl; rewrite !lookup_insert_eq; reflexivity)
  end.
  split; [exact Hp|].
  split.
  { intros result ns. simpl deliver. apply deliver_keeps_settled; [|exact I].
    apply get_success_settles; assumption. }
  split.
  { intros error ns. simpl deliver. apply deliver_keeps_settled; [|exact I].
    apply get_error_settles; assumption. }
  intros ns. apply deliver_no_engine.
Qed.

Ltac fresh_promise_settled :=
  unfold reject, resolve, settle; simpl; rewrite ?lookup_insert_eq; simpl.

(** X3. The calls of the two reads when everything succeeds.  [getValue]
    performs, in this order and nothing else, a readonly transaction on the
    table, the acquisition of that same table from the transaction, and
    [get] of the key on it.  [getLastValueFromTable] performs the readonly
    transaction, the table, the index named by its second argument on that
    table, and [openCursor(null, 'prev')] on that index.  Neither writes to
    the console, and each leaves every request object other than the one it
    issued as it was. *)
Theorem read_call_sequence :
  forall (db : IDBDatabase) (w : World S),
    (forall prm transaction s1 table s2 request s3,
        engine _ (Transaction db (gv_tableName prm) readonly) (eng w) = (Ok transaction, s1) ->
        engine _ (ObjectStore transaction (gv_tableName prm)) s1 = (Ok table, s2) ->
        engine _ (Get table (gv_key prm)) s2 = (Ok request, s3) ->
        exists p w',
          getValue (Some db) prm w = (Ok p, w') /\
          trace w' = trace w ++
            [EvEngine (Transaction db (gv_tableName prm) readonly);
             EvEngine (ObjectStore transaction (gv_tableName prm));
             EvEngine (Get table (gv_key prm))] /\
          eng w' = s3 /\
          (forall r, r <> request -> requests w' !! r = requests w !! r)) /\
    (forall tableName indexing transaction s1 table s2 index s3 cursor s4,
        engine _ (Transaction db tableName readonly) (eng w) = (Ok transaction, s1) ->
        engine _ (ObjectStore transaction tableName) s1 = (Ok table, s2) ->
        engine _ (Index table indexing) s2 = (Ok index, s3) ->
        engine _ (OpenCursor index VNull prev) s3 = (Ok cursor, s4) ->
        exists p w',
          getLastValueFromTable (Some db) tableName indexing w = (Ok p, w') /\
          trace w' = trace w ++
            [EvEngine (Transaction db tableName readonly);
             EvEngine (ObjectStore transaction tableName);
             EvEngine (Index table indexing);
             EvEngine (OpenCursor index VNull prev)] /\
          eng w' = s4 /\
          (forall r, r <> cursor -> requests w' !! r = requests w !! r)).
Proof.
  intros db w. split.
  - intros prm transaction s1 table s2 request s3 Htx Hstore Hget.
    unfold getValue, new_Promise, try_catch, bind, handleTransactionErr,
      handleObjectStoreErr.
    rewrite handled_call; simpl eng; rewrite Htx; cbv beta iota.
    rewrite handled_call; simpl eng; rewrite Hstore; cbv beta iota.
    unfold call at 1; simpl eng; rewrite Hget. simpl.
    eexists; eexists. split; [reflexivity|]. simpl.
    split; [rewrite <- !app_assoc; reflexivity|].
    split; [reflexivity|].
    intros r Hr. rewrite !lookup_insert_ne by congruence. reflexivity.
  - intros tableName indexing transaction s1 table s2 index s3 cursor s4
      Htx Hstore Hindex Hcursor.
    unfold getLastValueFromTable, new_Promise, try_catch, bind, handleTransactionErr,
      handleObjectStoreErr, handleIndexErr, handleOpenCursorErr.
    rewrite handled_call; simpl eng; rewrite Htx; cbv beta iota.
    rewrite handled_call; simpl eng; rewrite Hstore; cbv beta iota.
    rewrite handled_call; simpl eng; rewrite Hindex; cbv beta iota.
    rewrite handled. unfold bind, call; simpl eng; rewrite Hcursor. simpl.
    eexists; eexists. split; [reflexivity|]. simpl.
    split; [rewrite <- !app_assoc; reflexivity|].
    split; [reflexivity|].
    intros r Hr. rewrite !lookup_insert_ne by congruence. reflexivity.
Qed.

(** X4. When opening the transaction throws [e], each of the four record
    operations stops there: the transaction is the only engine call it
    makes (readonly for the reads, readwrite for the writes), the
    transactionError diagnostic is emitted once, no callback is registered,
    and the operation returns normally.  The reads add nothing else to the
    trace (their promise carries the failure); the writes add
    console.log('uncaught error', err). *)
Theorem transaction_failure_stops_operation :
  forall (db : IDBDatabase) (w : World S),
    (forall prm e s1,
        engine _ (Transaction db (gv_tableName prm) readonly) (eng w) = (Throw e, s1) ->
        exists p w',
          getValue (Some db) prm w = (Ok p, w') /\
          trace w' = trace w ++
            [EvEngine (Transaction db (gv_tableName prm) readonly);
             EvConsole console_error "transactionError 이 발생했습니다"
               [VError (set_name "transactionError" e)]] /\
          requests w' = requests w /\ eng w' = s1) /\
    (forall tableName indexing e s1,
        engine _ (Transaction db tableName readonly) (eng w) = (Throw e, s1) ->
        exists p w',
          getLastValueFromTable (Some db) tableName indexing w = (Ok p, w') /\
          trace w' = trace w ++
            [EvEngine (Transaction db tableName readonly);
             EvConsole console_error "transactionError 이 발생했습니다"
               [VError (set_name "transactionError" e)]] /\
          requests w' = requests w /\ eng w' = s1) /\
    (forall prm e s1,
        engine _ (Transaction db (sv_tableName prm) readwrite) (eng w) = (Throw e, s1) ->
        exists w',
          saveValue (Some db) prm w = (Ok tt, w') /\
          trace w' = trace w ++
            [EvEngine (Transaction db (sv_tableName prm) readwrite);
             EvConsole console_error "transactionError 이 발생했습니다"
               [VError (set_name "transactionError" e)];
             EvConsole console_log "uncaught error"
               [VError (set_name "transactionError" e)]] /\
          requests w' = requests w /\ eng w' = s1) /\
    (forall prm e s1,
        engine _ (Transaction db (dv_tableName prm) readwrite) (eng w) = (Throw e, s1) ->
        exists w',
          deleteValue (Some db) prm w = (Ok tt, w') /\
          trace w' = trace w ++
            [EvEngine (Transaction db (dv_tableName prm) readwrite);
             EvConsole console_error "transactionError 이 발생했습니다"
               [VError (set_name "transactionError" e)];
             EvConsole console_log "uncaught error"
               [VError (set_name "transactionError" e)]] /\
          requests w' = requests w /\ eng w' = s1).
Proof.
  intros db w.
  split; [|split; [|split]].
  - intros prm e s1 Htx.
    unfold getValue, new_Promise, try_catch, bind, handleTransactionErr.
    rewrite handled_call; simpl eng; rewrite Htx; cbv beta iota.
    fresh_promise_settled.
    eexists; eexists. split; [reflexivity|]. simpl.
    split; [rewrite <- !app_assoc; reflexivity|]. split; reflexivity.
  - intros tableName indexing e s1 Htx.
    unfold getLastValueFromTable, new_Promise, try_catch, bind, handleTransactionErr.
    rewrite handled_call; simpl eng; rewrite Htx; cbv beta iota.
    fresh_promise_settled.
    eexists; eexists. split; [reflexivity|]. simpl.
    split; [rewrite <- !app_assoc; reflexivity|]. split; reflexivity.
  - intros prm e s1 Htx.
    unfold saveValue, try_catch, bind, handleTransactionErr.
    rewrite handled_call; simpl eng; rewrite Htx; cbv beta iota.
    eexists. split; [reflexivity|]. simpl.
    split; [rewrite <- !app_assoc; reflexivity|]. split; reflexivity.
  - intros prm e s1 Htx.
    unfold deleteValue, try_catch, bind, handleTransactionErr.
    rewrite handled_call; simpl eng; rewrite Htx; cbv beta iota.
    eexists. split; [reflexivity|]. simpl.
    split; [rewrite <- !app_assoc; reflexivity|]. split; reflexivity.
Qed.

(** X5. [table.get] and [table.delete] are called outside every stage
    handler.  When [get] throws [e], [getValue] emits no diagnostic at all
    and rejects its promise with the envelope around [e] as the engine threw
    it, its name untouched.  When [delete] throws [e], [deleteValue] emits
    no console.error: the only console output is
    console.log('uncaught error', e), and no callback is registered. *)
Theorem unwrapped_request_failures :
  forall (db : IDBDatabase) (w : World S),
    (forall prm transaction s1 table s2 e s3,
        engine _ (Transaction db (gv_tableName prm) readonly) (eng w) = (Ok transaction, s1) ->
        engine _ (ObjectStore transaction (gv_tableName prm)) s1 = (Ok table, s2) ->
        engine _ (Get table (gv_key prm)) s2 = (Throw e, s3) ->
        exists p w',
          getValue (Some db) prm w = (Ok p, w') /\
          promises w' !! p =
            Some (Rejected (VObj [("reason", VStr "uncaught error"); ("err", VError e)])) /\
          trace w' = trace w ++
            [EvEngine (Transaction db (gv_tableName prm) readonly);
             EvEngine (ObjectStore transaction (gv_tableName prm));
             EvEngine (Get table (gv_key prm))] /\
          requests w' = requests w) /\
    (forall prm transaction s1 table s2 e s3,
        engine _ (Transaction db (dv_tableName prm) readwrite) (eng w) = (Ok transaction, s1) ->
        engine _ (ObjectStore transaction (dv_tableName prm)) s1 = (Ok table, s2) ->
        engine _ (Delete table (dv_key prm)) s2 = (Throw e, s3) ->
        exists w',
          deleteValue (Some db) prm w = (Ok tt, w') /\
          trace w' = trace w ++
            [EvEngine (Transaction db (dv_tableName prm) readwrite);
             EvEngine (ObjectStore transaction (dv_tableName prm));
             EvEngine (Delete table (dv_key prm));
             EvConsole console_log "uncaught error" [VError e]] /\
          requests w' = requests w).
Proof.
  intros db w. split.
  - intros prm transaction s1 table s2 e s3 Htx Hstore Hget.
    unfold getValue, new_Promise, try_catch, bind, handleTransactionErr,
      handleObjectStoreErr.
    rewrite handled_call; simpl eng; rewrite Htx; cbv beta iota.
    rewrite handled_call; simpl eng; rewrite Hstore; cbv beta iota.
    unfold call at 1; simpl eng; rewrite Hget.
    fresh_promise_settled.
    eexists; eexists. split; [reflexivity|]. simpl.
    split; [apply lookup_insert_eq|].
    split; [rewrite <- !app_assoc; reflexivity|reflexivity].
  - intros prm transaction s1 table s2 e s3 Htx Hstore Hdel.
    unfold deleteValue, try_catch, bind, handleTransactionErr, handleObjectStoreErr.
    rewrite handled_call; simpl eng; rewrite Htx; cbv beta iota.
    rewrite handled_call; simpl eng; rewrite Hstore; cbv beta iota.
    unfold call at 1; simpl eng; rewrite Hdel.
    eexists. split; [reflexivity|]. simpl.
    split; [rewrite <- !app_assoc; reflexivity|reflexivity].
Qed.

Lemma filter_engine_events (P : Event -> bool) (l : list Event) :
  (forall ev, P ev = true -> is_engine ev = true) ->
  List.filter P (List.filter is_engine l) = List.filter P l.
Proof.
  intros HP. induction l as [|ev l IH]; [reflexivity|]. simpl.
  destruct (is_engine ev) eqn:He; simpl.
  - rewrite IH. reflexivity.
  - destruct (P ev) eqn:Hp; [|exact IH].
    apply HP in Hp. congruence.
Qed.

Lemma deliver_filter (P : Event -> bool) (ns : list (IDBRequest * Notification))
    (w : World S) :
  (forall ev, P ev = true -> is_engine ev = true) ->
  List.filter P (trace (deliver ns w)) = List.filter P (trace w).
Proof.
  intros HP.
  rewrite <- (filter_engine_events P (trace (deliver ns w)) HP), deliver_no_engine.
  apply filter_engine_events. exact HP.
Qed.

Lemma mutation_is_engine (ev : Event) :
  is_schema_mutation ev || is_write ev = true -> is_engine ev = true.
Proof. destruct ev; simpl; [discriminate|reflexivity|discriminate]. Qed.

Lemma schema_mutation_is_engine (ev : Event) :
  is_schema_mutation ev = true -> is_engine ev = true.
Proof. destruct ev; simpl; [discriminate|reflexivity|discriminate]. Qed.

Ltac same_filter :=
  fresh_promise_settled; rewrite ?List.filter_app; simpl; rewrite ?app_nil_r; reflexivity.

(** X6. Whatever the handle, the arguments and the engine's answers, the
    record operations never change the schema, and the reads never write a
    record either: the object-store and index creations and deletions in the
    trace (and, for [getValue] and [getLastValueFromTable], the add, put and
    delete requests) are the same after the operation and after any
    notifications that follow it as before. *)
Theorem record_operations_leave_schema :
  forall (database : option IDBDatabase) (w : World S)
         (ns : list (IDBRequest * Notification)),
    (forall prm,
        List.filter (fun ev => is_schema_mutation ev || is_write ev)
          (trace (deliver ns (snd (getValue database prm w))))
        = List.filter (fun ev => is_schema_mutation ev || is_write ev) (trace w)) /\
    (forall tableName indexing,
        List.filter (fun ev => is_schema_mutation ev || is_write ev)
          (trace (deliver ns (snd (getLastValueFromTable database tableName indexing w))))
        = List.filter (fun ev => is_schema_mutation ev || is_write ev) (trace w)) /\
    (forall prm,
        List.filter is_schema_mutation (trace (deliver ns (snd (saveValue database prm w))))
        = List.filter is_schema_mutation (trace w)) /\
    (forall prm,
        List.filter is_schema_mutation (trace (deliver ns (snd (deleteValue database prm w))))
        = List.filter is_schema_mutation (trace w)).
Proof.
  intros database w ns.
  split; [|split; [|split]].
  - intros prm. rewrite (deliver_filter _ ns _ mutation_is_engine).
    destruct database as [db|].
    + unfold getValue, new_Promise, try_catch, bind, handleTransactionErr,
        handleObjectStoreErr.
      rewrite handled_call; simpl eng. answer; [|same_filter].
      rewrite handled_call; simpl eng. answer; [|same_filter].
      unfold call at 1; simpl eng. answer; same_filter.
    + rewrite getValue_no_handle. reflexivity.
  - intros tableName indexing. rewrite (deliver_filter _ ns _ mutation_is_engine).
    destruct database as [db|].
    + unfold getLastValueFromTable, new_Promise, try_catch, bind, handleTransactionErr,
        handleObjectStoreErr, handleIndexErr, handleOpenCursorErr.
      rewrite handled_call; simpl eng. answer; [|same_filter].
      rewrite handled_call; simpl eng. answer; [|same_filter].
      rewrite handled_call; simpl eng. answer; [|same_filter].
      rewrite handled. unfold bind, call; simpl eng. answer; same_filter.
    + rewrite getLastValueFromTable_no_handle. reflexivity.
  - intros prm. rewrite (deliver_filter _ ns _ schema_mutation_is_engine).
    destruct database as [db|]; [|unfold saveValue, console, emit; same_filter].
    unfold saveValue, try_catch, bind, handleTransactionErr, handleObjectStoreErr,
      handleCreateErr.
    rewrite handled_call; simpl eng. answer; [|same_filter].
    rewrite handled_call; simpl eng. answer; [|same_filter].
    rewrite handled.
    destruct (sv_type prm); unfold call at 1; simpl eng; answer; same_filter.
  - intros prm. rewrite (deliver_filter _ ns _ schema_mutation_is_engine).
    destruct database as [db|]; [|unfold deleteValue, console, emit; same_filter].
    unfold deleteValue, try_catch, bind, handleTransactionErr, handleObjectStoreErr.
    rewrite handled_call; simpl eng. answer; [|same_filter].
    rewrite handled_call; simpl eng. answer; [|same_filter].
    unfold call at 1; simpl eng. answer; same_filter.
Qed.

(** X7. On the handle it works on, when the engine answers that the table
    does not exist, [createTable] creates the object store with
    [indexing.memo] as key path, then one index on that store, named
    [indexing.memo], on the path [indexing.memo], unique, and returns the
    store.  Nothing is caught: when [createObjectStore] throws, the error
    reaches the caller as it is, no index is created and nothing is logged;
    when [createIndex] throws, the error reaches the caller after the store
    has been created. *)
Theorem createTable_creates_store_and_index :
  forall (indexing_memo : string) (database : option IDBDatabase) (tableName : string)
         (db_arg : option (option IDBDatabase)) (db : IDBDatabase) (w : World S) (s1 : S),
    match db_arg with Some d => d | None => database end = Some db ->
    engine _ (Contains db tableName) (eng w) = (Ok false, s1) ->
    (forall store s2 index s3,
        engine _ (CreateObjectStore db tableName indexing_memo) s1 = (Ok store, s2) ->
        engine _ (CreateIndex store indexing_memo indexing_memo true) s2 = (Ok index, s3) ->
        createTable indexing_memo database tableName db_arg w
        = (Ok (Some store),
           called (CreateIndex store indexing_memo indexing_memo true) s3
             (called (CreateObjectStore db tableName indexing_memo) s2
                (called (Contains db tableName) s1 w)))) /\
    (forall e s2,
        engine _ (CreateObjectStore db tableName indexing_memo) s1 = (Throw e, s2) ->
        createTable indexing_memo database tableName db_arg w
        = (Throw e,
           called (CreateObjectStore db tableName indexing_memo) s2
             (called (Contains db tableName) s1 w))) /\
    (forall store s2 e s3,
        engine _ (CreateObjectStore db tableName indexing_memo) s1 = (Ok store, s2) ->
        engine _ (CreateIndex store indexing_memo indexing_memo true) s2 = (Throw e, s3) ->
        createTable indexing_memo database tableName db_arg w
        = (Throw e,
           called (CreateIndex store indexing_memo indexing_memo true) s3
             (called (CreateObjectStore db tableName indexing_memo) s2
                (called (Contains db tableName) s1 w)))).
Proof.
  intros indexing_memo database tableName db_arg db w s1 Hdb Hcontains.
  unfold createTable. rewrite Hdb. unfold bind, call. rewrite Hcontains.
  cbv beta iota. change (negb false) with true. cbv beta iota. simpl eng.
  split; [|split].
  - intros store s2 index s3 Hstore Hindex.
    rewrite Hstore; cbv beta iota; simpl eng. rewrite Hindex. reflexivity.
  - intros e s2 Hstore. rewrite Hstore. reflexivity.
  - intros store s2 e s3 Hstore Hindex.
    rewrite Hstore; cbv beta iota; simpl eng. rewrite Hindex. reflexivity.
Qed.

(** X8. With a handle, [deleteTable] asks nothing before it calls
    [deleteObjectStore], and catches nothing: when the engine throws (a
    table that does not exist, say) the error reaches the caller and nothing
    is logged.  [destroyDatabase] deletes the database named by the hook's
    [dbName], whichever handle is held; it returns the engine's request
    without assigning any callback to it, and an exception of the engine
    reaches the caller. *)
Theorem lifecycle_operations_do_not_catch :
  forall (dbName : option string) (db : IDBDatabase) (w : World S),
    (forall tableName e s1,
        engine _ (DeleteObjectStore db tableName) (eng w) = (Throw e, s1) ->
        deleteTable (Some db) tableName w
        = (Throw e, called (DeleteObjectStore db tableName) s1 w)) /\
    (forall tableName s1,
        engine _ (DeleteObjectStore db tableName) (eng w) = (Ok tt, s1) ->
        deleteTable (Some db) tableName w
        = (Ok tt, called (DeleteObjectStore db tableName) s1 w)) /\
    (forall db', destroyDatabase dbName (Some db) w = destroyDatabase dbName (Some db') w) /\
    (forall request s1,
        engine _ (DeleteDatabase dbName) (eng w) = (Ok request, s1) ->
        destroyDatabase dbName (Some db) w
        = (Ok (Some request), called (DeleteDatabase dbName) s1 w)) /\
    (forall e s1,
        engine _ (DeleteDatabase dbName) (eng w) = (Throw e, s1) ->
        destroyDatabase dbName (Some db) w
        = (Throw e, called (DeleteDatabase dbName) s1 w)).
Proof.
  intros dbName db w.
  split; [|split; [|split; [|split]]].
  - intros tableName e s1 He. unfold deleteTable, call. rewrite He. reflexivity.
  - intros tableName s1 He. unfold deleteTable, call. rewrite He. reflexivity.
  - intros db'. reflexivity.
  - intros request s1 He. unfold destroyDatabase, bind, call. rewrite He. reflexivity.
  - intros e s1 He. unfold destroyDatabase, bind, call. rewrite He. reflexivity.
Qed.

Lemma delete_success_callback (onSuccess : option UserCallback) (request : IDBRequest)
    (result : value) (w : World S) :
  req_onsuccess (request_obj w request) = Some (CbDeleteSuccess onSuccess) ->
  exists w',
    notify request (NSuccess result) w = (Ok tt, w') /\
    promises w' = promises w /\
    trace w' = trace w ++ invoked onSuccess.
Proof.
  intros Hcb. unfold notify. rewrite Hcb. simpl.
  unfold invoke_optional, emit, ret.
  destruct onSuccess as [f|]; simpl; eexists; (split; [reflexivity|]); simpl.
  - split; reflexivity.
  - split; [reflexivity|]. rewrite app_nil_r. reflexivity.
Qed.

(** X9. With a handle, when the acquisitions succeed and [table.delete]
    returns its request, [deleteValue] has made exactly three engine calls:
    a readwrite transaction on the table, that table, and [delete] of the
    key.  A success notification of the request then invokes [onSuccess]
    when it is present and does nothing else, an error notification does the
    same with [onError]; neither writes to the console, throws, or touches a
    promise. *)
Theorem deleteValue_issued :
  forall (db : IDBDatabase) (prm : DeleteValueParams) (w : World S)
         (transaction : IDBTransaction) (s1 : S) (table : IDBObjectStore) (s2 : S)
         (request : IDBRequest) (s3 : S),
    engine _ (Transaction db (dv_tableName prm) readwrite) (eng w) = (Ok transaction, s1) ->
    engine _ (ObjectStore transaction (dv_tableName prm)) s1 = (Ok table, s2) ->
    engine _ (Delete table (dv_key prm)) s2 = (Ok request, s3) ->
    exists w',
      deleteValue (Some db) prm w = (Ok tt, w') /\
      trace w' = trace w ++
        [EvEngine (Transaction db (dv_tableName prm) readwrite);
         EvEngine (ObjectStore transaction (dv_tableName prm));
         EvEngine (Delete table (dv_key prm))] /\
      (forall result, exists w'',
          notify request (NSuccess result) w' = (Ok tt, w'') /\
          promises w'' = promises w' /\
          trace w'' = trace w' ++ invoked (dv_onSuccess prm)) /\
      (forall error, exists w'',
          notify request (NError error) w' = (Ok tt, w'') /\
          promises w'' = promises w' /\
          trace w'' = trace w' ++ invoked (dv_onError prm)).
Proof.
  intros db prm w transaction s1 table s2 request s3 Htx Hstore Hdel.
  unfold deleteValue, try_catch, bind, handleTransactionErr, handleObjectStoreErr.
  rewrite handled_call; simpl eng; rewrite Htx; cbv beta iota.
  rewrite handled_call; simpl eng; rewrite Hstore; cbv beta iota.
  unfold call at 1; simpl eng; rewrite Hdel.
  eexists. split; [reflexivity|].
  split; [simpl; rewrite <- !app_assoc; reflexivity|].
  split.
  - intros result.
    match goal with
    | |- context [notify ?r (NSuccess ?v) ?w'] =>
        apply (delete_success_callback (dv_onSuccess prm) r v w');
        unfold request_obj; simpl; rewrite lookup_insert_eq; simpl;
        rewrite lookup_insert_eq; reflexivity
    end.
  - intros error.
    match goal with
    | |- context [notify ?r (NError ?v) ?w'] =>
        apply (delete_error_callback (dv_onError prm) r v w');
        unfold request_obj; simpl; rewrite !lookup_insert_eq; reflexivity
    end.
Qed.

Ltac count_errors :=
  fresh_promise_settled; rewrite ?List.filter_app, ?List.length_app; simpl; lia.

(** X15. With a handle, a record operation emits one console.error when a
    call wrapped by a stage handler throws, and none otherwise (the request
    is issued, or an unwrapped [get] or [delete] throws): a failure that the
    nested handlers pass on is reported once, never once per handler. *)
Theorem one_diagnostic_per_stage_failure :
  forall (db : IDBDatabase) (w : World S),
    (forall prm,
        length (List.filter is_console_error (trace (snd (getValue (Some db) prm w))))
        = length (List.filter is_console_error (trace w))
          + reported (getValue_acquisition db prm (eng w))) /\
    (forall tableName indexing,
        length (List.filter is_console_error
                  (trace (snd (getLastValueFromTable (Some db) tableName indexing w))))
        = length (List.filter is_console_error (trace w))
          + reported (getLastValue_acquisition db tableName indexing (eng w))) /\
    (forall prm,
        length (List.filter is_console_error (trace (snd (saveValue (Some db) prm w))))
        = length (List.filter is_console_error (trace w))
          + reported (saveValue_acquisition db prm (eng w))) /\
    (forall prm,
        length (List.filter is_console_error (trace (snd (deleteValue (Some db) prm w))))
        = length (List.filter is_console_error (trace w))
          + reported (deleteValue_acquisition db prm (eng w))).
Proof.
  intros db w.
  split; [|split; [|split]].
  - intros prm.
    unfold getValue, new_Promise, try_catch, bind, handleTransactionErr,
      handleObjectStoreErr, getValue_acquisition.
    rewrite handled_call; simpl eng. answer; [|count_errors].
    rewrite handled_call; simpl eng. answer; [|count_errors].
    unfold call at 1; simpl eng. answer; count_errors.
  - intros tableName indexing.
    unfold getLastValueFromTable, new_Promise, try_catch, bind, handleTransactionErr,
      handleObjectStoreErr, handleIndexErr, handleOpenCursorErr, getLastValue_acquisition.
    rewrite handled_call; simpl eng. answer; [|count_errors].
    rewrite handled_call; simpl eng. answer; [|count_errors].
    rewrite handled_call; simpl eng. answer; [|count_errors].
    rewrite handled. unfold bind, call; simpl eng. answer; count_errors.
  - intros prm.
    unfold saveValue, try_catch, bind, handleTransactionErr, handleObjectStoreErr,
      handleCreateErr, saveValue_acquisition.
    rewrite handled_call; simpl eng. answer; [|count_errors].
    rewrite handled_call; simpl eng. answer; [|count_errors].
    rewrite handled.
    destruct (sv_type prm); unfold call at 1; simpl eng; answer; count_errors.
  - intros prm.
    unfold deleteValue, try_catch, bind, handleTransactionErr, handleObjectStoreErr,
      deleteValue_acquisition.
    rewrite handled_call; simpl eng. answer; [|count_errors].
    rewrite handled_call; simpl eng. answer; [|count_errors].
    unfold call at 1; simpl eng. answer; count_errors.
Qed.

End Properties.

(** * The stage handlers on the small engine *)

Lemma stage_handler_reports_and_rethrows_witness :
  exists e' w'',
    stage_handler transactionError
      (call (Transaction 0 "memo" readonly)) (demo_world [])
    = (Throw e', w'') /\
    e' = set_name "transactionError" NotFoundError /\
    err_message e' = err_message NotFoundError /\
    err_name e' = "transactionError" /\
    trace w'' =
      trace (called (Transaction 0 "memo" readonly)
               {| tables := []; next_handle := 0 |} (demo_world []))
      ++ [EvConsole console_error "transactionError 이 발생했습니다" [VError e']] /\
    eng w'' = {| tables := []; next_handle := 0 |} /\
    promises w'' = ∅ /\ requests w'' = ∅.
Proof.
  apply (stage_handler_reports_and_rethrows transactionError _
           (call (Transaction 0 "memo" readonly))
           NotFoundError (demo_world [])
           (called (Transaction 0 "memo" readonly)
              {| tables := []; next_handle := 0 |} (demo_world []))).
  reflexivity.
Defined.

Lemma stage_handler_identity_on_success_witness :
  stage_handler objectStoreError
    (call (ObjectStore 0 "memo")) (demo_world ["memo"])
  = (Ok 0, called (ObjectStore 0 "memo")
             {| tables := ["memo"]; next_handle := 1 |} (demo_world ["memo"])).
Proof.
  apply (stage_handler_identity_on_success objectStoreError _
           (call (ObjectStore 0 "memo"))).
  reflexivity.
Defined.

(** C2 as stated fails for [createTable]: with no current handle but a
    handle passed as its [db] argument, it calls the engine (and logs
    nothing). *)
Lemma createTable_explicit_handle_calls_engine :
  createTable "id" None "memo" (Some (Some 0)) (demo_world [])
  = (Ok (Some 0),
     {| eng := {| tables := ["memo"]; next_handle := 2 |};
        trace := [EvEngine (Contains 0 "memo");
                  EvEngine (CreateObjectStore 0 "memo" "id");
                  EvEngine (CreateIndex 0 "id" "id" true)];
        promises := ∅; next_promise := 0; requests := ∅ |}).
Proof. reflexivity. Qed.

(** * The storage layer on the small engine *)

(** A missing table: the transaction throws, the promise is rejected with
    the envelope around the tagged error. *)
Example getValue_missing_table :
  let r := getValue (Some 0) (mkGetValueParams "memo" None (VNum 1)) (demo_world []) in
  fst r = Ok 0 /\
  promises (snd r) !! 0 =
    Some (Rejected (VObj [("reason", VStr "uncaught error");
                          ("err", VError (mkError "transactionError"
                                            "object store not found"))])) /\
  trace (snd r) =
    [EvEngine (Transaction 0 "memo" readonly);
     EvConsole console_error "transactionError 이 발생했습니다"
       [VError (mkError "transactionError" "object store not found")]].
Proof. vm_compute. repeat split. Qed.

(** An invalid key: [table.get] throws outside every stage handler and the
    envelope carries the engine's error as it is. *)
Example getValue_invalid_key :
  let r := getValue (Some 0) (mkGetValueParams "memo" None VNull) (demo_world ["memo"]) in
  fst r = Ok 0 /\
  promises (snd r) !! 0 =
    Some (Rejected (VObj [("reason", VStr "uncaught error"); ("err", VError DataError)])).
Proof. vm_compute. repeat split. Qed.

Lemma getLastValueFromTable_first_notification_witness :
  exists p w',
    getLastValueFromTable (Some 0) "memo" "id" (demo_world ["memo"]) = (Ok p, w') /\
    promises w' !! p = Some Pending /\
    promises (deliver [(3, NSuccess (VObj [("key", VNum 2); ("value", VStr "last")]));
                       (3, NError VNull)] w') !! p
    = Some (Fulfilled (VStr "last")) /\
    promises (deliver [(3, NSuccess VNull)] w') !! p = Some (Fulfilled VUndefined) /\
    promises (deliver [(3, NError (VError DataError))] w') !! p
    = Some (Rejected (VError (mkError "Error"
              "Failed to retrieve last value from object store"))).
Proof.
  assert (Hacq : getLastValue_acquisition 0 "memo" "id" (eng (demo_world ["memo"]))
                 = Issued 3) by reflexivity.
  destruct (getLastValueFromTable_first_notification 0 "memo" "id"
              (demo_world ["memo"]) 3 Hacq)
    as [p [w' [Hrun [Hpending [_ [Hvalue [Hnull [Herror _]]]]]]]].
  exists p, w'.
  split; [exact Hrun|].
  split; [exact Hpending|].
  split; [exact (Hvalue [("key", VNum 2); ("value", VStr "last")] [(3, NError VNull)])|].
  split; [exact (Hnull [])|].
  exact (Herror (VError DataError) []).
Defined.

Lemma saveValue_issues_add_or_put_witness :
  exists w',
    saveValue (Some 0) memo_add (demo_world ["memo"]) = (Ok tt, w') /\
    List.filter is_engine (trace w') =
      [EvEngine (Transaction 0 "memo" readwrite);
       EvEngine (ObjectStore 0 "memo");
       EvEngine (Add 1 (VStr "text") (VNum 1))].
Proof.
  destruct (saveValue_issues_add_or_put 0 memo_add (demo_world ["memo"])
              0 {| tables := ["memo"]; next_handle := 1 |}
              1 {| tables := ["memo"]; next_handle := 2 |}
              eq_refl eq_refl)
    as [w' [Hrun [Hcalls _]]].
  exists w'. split; [exact Hrun|exact Hcalls].
Defined.

Lemma createTable_idempotent_witness :
  createTable "id" None "memo" (Some (Some 0)) (demo_world ["memo"])
  = (Ok None,
     called (Contains 0 "memo") {| tables := ["memo"]; next_handle := 0 |}
       (demo_world ["memo"])).
Proof.
  assert (Hdb : match Some (Some 0) with Some d => d | None => None end = Some 0)
    by reflexivity.
  destruct (createTable_idempotent "id" None "memo" (Some (Some 0)) 0
              (demo_world ["memo"]) Hdb) as [Hexists _].
  apply Hexists. reflexivity.
Defined.

(** Called twice on an empty database: the first call creates the table
    and its index, the second only asks whether the table exists. *)
Example createTable_twice :
  let first := createTable "id" (Some 0) "memo" None (demo_world []) in
  let second := createTable "id" (Some 0) "memo" None (snd first) in
  fst first = Ok (Some 0) /\ fst second = Ok None /\
  trace (snd second) =
    [EvEngine (Contains 0 "memo");
     EvEngine (CreateObjectStore 0 "memo" "id");
     EvEngine (CreateIndex 0 "id" "id" true);
     EvEngine (Contains 0 "memo")].
Proof. vm_compute. repeat split. Qed.

(** C5 as stated fails for [saveValue]: without [onError], an error
    notification on the request is not silent, it emits a console.error. *)
Lemma saveValue_request_error_not_silent :
  sv_onError memo_put = None /\
  trace (snd (notify 2 (NError (VError QuotaExceededError))
                (snd (saveValue (Some 0) memo_put (demo_world ["memo"])))))
  = trace (snd (saveValue (Some 0) memo_put (demo_world ["memo"])))
    ++ [EvConsole console_error "no suffient space to save data" []].
Proof. split; [reflexivity|]. vm_compute. reflexivity. Qed.

(** * Properties of hooks/useUpdateCanvasSize.ts *)

Lemma fresh_not_registered (d : Dom) (canvas : option nat) :
  closures_fresh d ->
  existsb (same_closure {| ls_closure := next_closure d; ls_canvas := canvas |})
    (resize_listeners d) = false.
Proof.
  unfold closures_fresh. generalize (next_closure d) as n.
  induction (resize_listeners d) as [|g ls IH]; intros n Hall; [reflexivity|].
  inversion Hall as [|g' ls' Hg Hls]; subst. simpl.
  rewrite (IH n Hls). unfold same_closure. simpl.
  destruct (Nat.eqb_spec n (ls_closure g)) as [Heq|_]; [lia|reflexivity].
Qed.

Lemma remove_fresh (ls : list ResizeListener) (n : nat) (canvas : option nat) :
  Forall (fun f => ls_closure f < n) ls ->
  List.filter (fun g => negb (same_closure {| ls_closure := n; ls_canvas := canvas |} g))
    (ls ++ [{| ls_closure := n; ls_canvas := canvas |}]) = ls.
Proof.
  induction ls as [|g ls IH]; intros Hall; simpl.
  - unfold same_closure. simpl. rewrite Nat.eqb_refl. reflexivity.
  - inversion Hall as [|g' ls' Hg Hls]; subst.
    unfold same_closure at 1. simpl.
    destruct (Nat.eqb_spec n (ls_closure g)) as [Heq|_]; [lia|]. simpl.
    rewrite (IH Hls). reflexivity.
Qed.

Lemma updateCanvasSize_sized (c : nat) (el : HTMLCanvasElement) (size : nat * nat)
    (d : Dom) :
  canvases d !! c = Some el -> cv_parent el = Some size ->
  updateCanvasSize (Some c) d =
  (Ok tt, with_canvases
            (<[c := {| cv_width := fst size; cv_height := snd size;
                       cv_parent := Some size; cv_context2d := cv_context2d el |}]>
               (canvases d)) d).
Proof.
  intros Hel Hp.
  unfold updateCanvasSize, dbind, parent_client, set_width, set_height.
  rewrite Hel, Hp. simpl. rewrite Hel. simpl.
  rewrite lookup_insert_eq. simpl. rewrite Hp. simpl.
  rewrite lookup_insert_eq. simpl. unfold with_canvases. simpl.
  rewrite insert_insert_eq. reflexivity.
Qed.

Lemma updateCanvasSize_null (d : Dom) :
  updateCanvasSize None d = (Throw TypeError, d).
Proof. reflexivity. Qed.

Lemma updateCanvasSize_detached (c : nat) (el : HTMLCanvasElement) (d : Dom) :
  canvases d !! c = Some el -> cv_parent el = None ->
  updateCanvasSize (Some c) d = (Throw TypeError, d).
Proof.
  intros Hel Hp. unfold updateCanvasSize, dbind, parent_client.
  rewrite Hel, Hp. reflexivity.
Qed.

Lemma effect_without_canvas (isMobile : bool) (d : Dom) :
  canvasRef_current d = None ->
  useUpdateCanvasSize_effect isMobile d =
  (Throw TypeError,
   {| canvases := canvases d; canvasRef_current := None;
      canvasCtxRef_current := CtxUndefined;
      resize_listeners := resize_listeners d;
      next_closure := Datatypes.S (next_closure d) |}).
Proof.
  intros Href.
  unfold useUpdateCanvasSize_effect, dbind, read_canvasRef, getContext2d,
    write_canvasCtxRef, new_updateCanvasSize.
  rewrite Href. cbv beta iota. rewrite updateCanvasSize_null.
  simpl. rewrite Href. reflexivity.
Qed.

Lemma effect_on_detached_canvas (isMobile : bool) (d : Dom) (c : nat)
    (el : HTMLCanvasElement) :
  canvasRef_current d = Some c ->
  canvases d !! c = Some el ->
  cv_parent el = None ->
  useUpdateCanvasSize_effect isMobile d =
  (Throw TypeError,
   {| canvases := canvases d; canvasRef_current := Some c;
      canvasCtxRef_current := match cv_context2d el with
                              | Some ctx => CtxObject ctx
                              | None => CtxNull
                              end;
      resize_listeners := resize_listeners d;
      next_closure := Datatypes.S (next_closure d) |}).
Proof.
  intros Href Hel Hp.
  unfold useUpdateCanvasSize_effect, dbind, read_canvasRef, getContext2d,
    write_canvasCtxRef, new_updateCanvasSize.
  rewrite Href, Hel. cbv beta iota.
  rewrite (updateCanvasSize_detached c el) by assumption.
  simpl. rewrite Href. reflexivity.
Qed.

Lemma effect_on_attached_canvas (isMobile : bool) (d : Dom) (c : nat)
    (el : HTMLCanvasElement) (size : nat * nat) :
  canvasRef_current d = Some c ->
  canvases d !! c = Some el ->
  cv_parent el = Some size ->
  closures_fresh d ->
  useUpdateCanvasSize_effect isMobile d =
  (Ok (if isMobile then None
       else Some (RemoveResizeListener
                    {| ls_closure := next_closure d; ls_canvas := Some c |})),
   {| canvases := <[c := {| cv_width := fst size; cv_height := snd size;
                            cv_parent := Some size;
                            cv_context2d := cv_context2d el |}]> (canvases d);
      canvasRef_current := Some c;
      canvasCtxRef_current := match cv_context2d el with
                              | Some ctx => CtxObject ctx
                              | None => CtxNull
                              end;
      resize_listeners :=
        if isMobile then resize_listeners d
        else resize_listeners d ++
               [{| ls_closure := next_closure d; ls_canvas := Some c |}];
      next_closure := Datatypes.S (next_closure d) |}).
Proof.
  intros Href Hel Hp Hfresh.
  unfold useUpdateCanvasSize_effect, dbind, read_canvasRef, getContext2d,
    write_canvasCtxRef, new_updateCanvasSize.
  rewrite Href, Hel. cbv beta iota.
  rewrite (updateCanvasSize_sized c el size) by assumption.
  destruct isMobile; simpl.
  - unfold with_canvases. simpl. rewrite Href. reflexivity.
  - unfold addEventListener, with_canvases. simpl.
    rewrite (fresh_not_registered d (Some c) Hfresh).
    unfold with_listeners. simpl. rewrite Href. reflexivity.
Qed.

(** X10. When [canvasRef] holds a canvas that has a parent element, the
    effect gives the canvas the client width and height of its parent,
    stores in [canvasCtxRef] what [getContext('2d')] returns for it (null
    included), and leaves every other canvas as it was.  Off mobile it
    registers one new 'resize' listener and returns the function that
    removes it; on mobile it registers nothing and returns nothing. *)
Theorem effect_sizes_canvas_to_parent :
  forall (isMobile : bool) (d : Dom) (c : nat) (el : HTMLCanvasElement)
         (width height : nat),
    canvasRef_current d = Some c ->
    canvases d !! c = Some el ->
    cv_parent el = Some (width, height) ->
    closures_fresh d ->
    exists cleanup d',
      useUpdateCanvasSize_effect isMobile d = (Ok cleanup, d') /\
      canvases d' !! c = Some {| cv_width := width; cv_height := height;
                                 cv_parent := Some (width, height);
                                 cv_context2d := cv_context2d el |} /\
      (forall c', c' <> c -> canvases d' !! c' = canvases d !! c') /\
      canvasCtxRef_current d' = match cv_context2d el with
                                | Some ctx => CtxObject ctx
                                | None => CtxNull
                                end /\
      (isMobile = true -> cleanup = None /\ resize_listeners d' = resize_listeners d) /\
      (isMobile = false ->
       exists f, cleanup = Some (RemoveResizeListener f) /\
                 ls_canvas f = Some c /\
                 resize_listeners d' = resize_listeners d ++ [f]).
Proof.
  intros isMobile d c el width height Href Hel Hp Hfresh.
  eexists; eexists.
  split; [apply (effect_on_attached_canvas isMobile d c el (width, height)); assumption|].
  simpl.
  split; [apply lookup_insert_eq|].
  split; [intros c' Hne; apply lookup_insert_ne; congruence|].
  split; [reflexivity|].
  split.
  - intros ->. split; reflexivity.
  - intros ->. eexists. split; [reflexivity|]. split; reflexivity.
Qed.

(** X11. Running the effect and then what it returned leaves the window's
    'resize' listeners exactly as they were before the effect, on mobile as
    off it: no listener is left behind, and none of the others is removed. *)
Theorem effect_then_cleanup_restores_listeners :
  forall (isMobile : bool) (d d' : Dom) (cleanup : option Cleanup),
    closures_fresh d ->
    useUpdateCanvasSize_effect isMobile d = (Ok cleanup, d') ->
    resize_listeners (snd (run_cleanup cleanup d')) = resize_listeners d /\
    closures_fresh (snd (run_cleanup cleanup d')).
Proof.
  intros isMobile d d' cleanup Hfresh Hrun.
  assert (Hmono : Forall (fun f => ls_closure f < Datatypes.S (next_closure d))
                    (resize_listeners d)).
  { unfold closures_fresh in Hfresh. eapply Forall_impl; [exact Hfresh|].
    simpl. intros f Hf. lia. }
  destruct (canvasRef_current d) as [c|] eqn:Href.
  - destruct (canvases d !! c) as [el|] eqn:Hel.
    + destruct (cv_parent el) as [size|] eqn:Hp.
      * rewrite (effect_on_attached_canvas isMobile d c el size Href Hel Hp Hfresh) in Hrun.
        inversion Hrun; subst; clear Hrun.
        destruct isMobile; simpl.
        -- split; [reflexivity|exact Hmono].
        -- unfold closures_fresh. simpl.
           rewrite (remove_fresh (resize_listeners d) (next_closure d) (Some c) Hfresh).
           split; [reflexivity|exact Hmono].
      * rewrite (effect_on_detached_canvas isMobile d c el Href Hel Hp) in Hrun.
        discriminate Hrun.
    + exfalso. revert Hrun.
      unfold useUpdateCanvasSize_effect, dbind, read_canvasRef, getContext2d.
      rewrite Href, Hel. discriminate.
  - rewrite (effect_without_canvas isMobile d Href) in Hrun. discriminate Hrun.
Qed.

Lemma updateCanvasSize_dangling (c : nat) (d : Dom) :
  canvases d !! c = None -> updateCanvasSize (Some c) d = (Throw TypeError, d).
Proof.
  intros Hel. unfold updateCanvasSize, dbind, parent_client. rewrite Hel. reflexivity.
Qed.

(** What a listener does to a canvas other than the one it captured, and to
    the parent of any canvas: nothing. *)
Lemma updateCanvasSize_other (x : option nat) (c : nat) (d : Dom) :
  x <> Some c ->
  canvases (snd (updateCanvasSize x d)) !! c = canvases d !! c.
Proof.
  intros Hx. destruct x as [y|]; [|reflexivity].
  destruct (canvases d !! y) as [el|] eqn:Hel.
  - destruct (cv_parent el) as [size|] eqn:Hp.
    + rewrite (updateCanvasSize_sized y el size d Hel Hp). simpl.
      apply lookup_insert_ne. congruence.
    + rewrite (updateCanvasSize_detached y el d Hel Hp). reflexivity.
  - rewrite (updateCanvasSize_dangling y d Hel). reflexivity.
Qed.



Lemma run_listeners_other (ls : list ResizeListener) :
  forall (c : nat) (d : Dom),
    Forall (fun f => ls_canvas f <> Some c) ls ->
    canvases (run_listeners ls d) !! c = canvases d !! c.
Proof.
  induction ls as [|f ls IH]; intros c d Hall; simpl; [reflexivity|].
  inversion Hall as [|f' ls' Hf Hls]; subst.
  rewrite (IH c _ Hls). apply updateCanvasSize_other. exact Hf.
Qed.



(** X13. On mobile the effect registers no listener, so the canvas keeps the
    size the effect gave it: when no listener registered before captures
    the canvas, a later change of the parent's size followed by a 'resize'
    of the window leaves the canvas's width and height at the parent's
    former size. *)
Theorem mobile_canvas_keeps_first_size :
  forall (d : Dom) (c : nat) (el : HTMLCanvasElement) (width height : nat)
         (size' : nat * nat),
    closures_fresh d ->
    canvasRef_current d = Some c ->
    canvases d !! c = Some el ->
    cv_parent el = Some (width, height) ->
    Forall (fun f => ls_canvas f <> Some c) (resize_listeners d) ->
    canvases (dispatch_resize
                (layout_parent c size'
                   (snd (useUpdateCanvasSize_effect true d)))) !! c
    = Some {| cv_width := width; cv_height := height;
              cv_parent := Some size'; cv_context2d := cv_context2d el |}.
Proof.
  intros d c el width height size' Hfresh Href Hel Hp Hothers.
  rewrite (effect_on_attached_canvas true d c el (width, height) Href Hel Hp Hfresh).
  unfold layout_parent. simpl. rewrite lookup_insert_eq.
  unfold dispatch_resize. simpl resize_listeners.
  rewrite (run_listeners_other (resize_listeners d) c _ Hothers). simpl.
  apply lookup_insert_eq.
Qed.

(** X14. When [canvasRef] is empty the effect throws a TypeError, having
    stored [undefined] in [canvasCtxRef]; when the canvas has no parent
    element it throws a TypeError, having stored the canvas's context.  In
    both cases no listener is registered, no canvas is changed and nothing
    is returned to clean up. *)
Theorem effect_throws_without_canvas_or_parent :
  forall (isMobile : bool) (d : Dom),
    (canvasRef_current d = None ->
     exists e d',
       useUpdateCanvasSize_effect isMobile d = (Throw e, d') /\
       err_name e = "TypeError" /\
       canvasCtxRef_current d' = CtxUndefined /\
       resize_listeners d' = resize_listeners d /\
       canvases d' = canvases d) /\
    (forall c el,
        canvasRef_current d = Some c ->
        canvases d !! c = Some el ->
        cv_parent el = None ->
        exists e d',
          useUpdateCanvasSize_effect isMobile d = (Throw e, d') /\
          err_name e = "TypeError" /\
          canvasCtxRef_current d' = match cv_context2d el with
                                    | Some ctx => CtxObject ctx
                                    | None => CtxNull
                                    end /\
          resize_listeners d' = resize_listeners d /\
          canvases d' = canvases d).
Proof.
  intros isMobile d. split.
  - intros Href. eexists; eexists.
    split; [apply (effect_without_canvas isMobile d Href)|]. repeat split.
  - intros c el Href Hel Hp. eexists; eexists.
    split; [apply (effect_on_detached_canvas isMobile d c el Href Hel Hp)|].
    repeat split.
Qed.

(** * The further properties on the small engine and the small page *)

Lemma getValue_first_notification_witness :
  exists p w',
    getValue (Some 0) (mkGetValueParams "memo" None (VNum 1)) (demo_world ["memo"])
    = (Ok p, w') /\
    promises (deliver [(2, NSuccess (VStr "text")); (2, NError VNull)] w') !! p
    = Some (Fulfilled (VStr "text")) /\
    promises (deliver [(2, NSuccess VUndefined)] w') !! p = Some (Fulfilled VUndefined) /\
    promises (deliver [(2, NError (VError QuotaExceededError))] w') !! p
    = Some (Rejected (VError QuotaExceededError)).
Proof.
  assert (Hacq : getValue_acquisition 0 (mkGetValueParams "memo" None (VNum 1))
                   (eng (demo_world ["memo"])) = Issued 2) by reflexivity.
  destruct (getValue_first_notification 0 (mkGetValueParams "memo" None (VNum 1))
              (demo_world ["memo"]) 2 Hacq)
    as [p [w' [Hrun [_ [Hok [Herr _]]]]]].
  exists p, w'.
  split; [exact Hrun|].
  split; [exact (Hok (VStr "text") [(2, NError VNull)])|].
  split; [exact (Hok VUndefined [])|].
  exact (Herr (VError QuotaExceededError) []).
Defined.

Lemma read_call_sequence_witness :
  exists p w',
    getLastValueFromTable (Some 0) "memo" "id" (demo_world ["memo"]) = (Ok p, w') /\
    trace w' = [EvEngine (Transaction 0 "memo" readonly);
                EvEngine (ObjectStore 0 "memo");
                EvEngine (Index 1 "id");
                EvEngine (OpenCursor 2 VNull prev)].
Proof.
  destruct (proj2 (read_call_sequence 0 (demo_world ["memo"])) "memo" "id"
              0 {| tables := ["memo"]; next_handle := 1 |}
              1 {| tables := ["memo"]; next_handle := 2 |}
              2 {| tables := ["memo"]; next_handle := 3 |}
              3 {| tables := ["memo"]; next_handle := 4 |}
              eq_refl eq_refl eq_refl eq_refl)
    as [p [w' [Hrun [Htrace _]]]].
  exists p, w'. split; [exact Hrun|exact Htrace].
Defined.

Lemma transaction_failure_stops_operation_witness :
  exists w',
    saveValue (Some 0) memo_add (demo_world []) = (Ok tt, w') /\
    trace w' = [EvEngine (Transaction 0 "memo" readwrite);
                EvConsole console_error "transactionError 이 발생했습니다"
                  [VError (set_name "transactionError" NotFoundError)];
                EvConsole console_log "uncaught error"
                  [VError (set_name "transactionError" NotFoundError)]] /\
    requests w' = ∅.
Proof.
  destruct (proj1 (proj2 (proj2 (transaction_failure_stops_operation 0 (demo_world []))))
              memo_add NotFoundError {| tables := []; next_handle := 0 |} eq_refl)
    as [w' [Hrun [Htrace [Hreq _]]]].
  exists w'. split; [exact Hrun|]. split; [exact Htrace|exact Hreq].
Defined.

Lemma unwrapped_request_failures_witness :
  exists p w',
    getValue (Some 0) (mkGetValueParams "memo" None VNull) (demo_world ["memo"])
    = (Ok p, w') /\
    promises w' !! p =
      Some (Rejected (VObj [("reason", VStr "uncaught error"); ("err", VError DataError)])) /\
    trace w' = [EvEngine (Transaction 0 "memo" readonly);
                EvEngine (ObjectStore 0 "memo");
                EvEngine (Get 1 VNull)].
Proof.
  destruct (proj1 (unwrapped_request_failures 0 (demo_world ["memo"]))
              (mkGetValueParams "memo" None VNull)
              0 {| tables := ["memo"]; next_handle := 1 |}
              1 {| tables := ["memo"]; next_handle := 2 |}
              DataError {| tables := ["memo"]; next_handle := 2 |}
              eq_refl eq_refl eq_refl)
    as [p [w' [Hrun [Hrej [Htrace _]]]]].
  exists p, w'. split; [exact Hrun|]. split; [exact Hrej|exact Htrace].
Defined.

Lemma createTable_creates_store_and_index_witness :
  createTable "id" (Some 0) "memo" None (demo_world [])
  = (Ok (Some 0),
     called (CreateIndex 0 "id" "id" true) {| tables := ["memo"]; next_handle := 2 |}
       (called (CreateObjectStore 0 "memo" "id") {| tables := ["memo"]; next_handle := 1 |}
          (called (Contains 0 "memo") {| tables := []; next_handle := 0 |}
             (demo_world [])))).
Proof.
  assert (Hdb : match @None (option IDBDatabase) with
                | Some d => d
                | None => Some 0
                end = Some 0) by reflexivity.
  assert (Habsent : engine _ (Contains 0 "memo") (eng (demo_world []))
                    = (Ok false, {| tables := []; next_handle := 0 |})) by reflexivity.
  destruct (createTable_creates_store_and_index "id" (Some 0) "memo" None 0
              (demo_world []) _ Hdb Habsent) as [Hcreate _].
  apply (Hcreate 0 {| tables := ["memo"]; next_handle := 1 |}
                 1 {| tables := ["memo"]; next_handle := 2 |}); reflexivity.
Defined.

Lemma lifecycle_operations_do_not_catch_witness :
  deleteTable (Some 0) "memo" (demo_world [])
  = (Throw NotFoundError,
     called (DeleteObjectStore 0 "memo") {| tables := []; next_handle := 0 |}
       (demo_world [])).
Proof.
  apply (proj1 (lifecycle_operations_do_not_catch None 0 (demo_world []))).
  reflexivity.
Defined.

Lemma deleteValue_issued_witness :
  exists w' w'',
    deleteValue (Some 0) (mkDeleteValueParams "memo" (VNum 1) (Some 7) None)
      (demo_world ["memo"]) = (Ok tt, w') /\
    trace w' = [EvEngine (Transaction 0 "memo" readwrite);
                EvEngine (ObjectStore 0 "memo");
                EvEngine (Delete 1 (VNum 1))] /\
    notify 2 (NSuccess VUndefined) w' = (Ok tt, w'') /\
    trace w'' = trace w' ++ [EvUser 7].
Proof.
  destruct (deleteValue_issued 0 (mkDeleteValueParams "memo" (VNum 1) (Some 7) None)
              (demo_world ["memo"])
              0 {| tables := ["memo"]; next_handle := 1 |}
              1 {| tables := ["memo"]; next_handle := 2 |}
              2 {| tables := ["memo"]; next_handle := 3 |}
              eq_refl eq_refl eq_refl)
    as [w' [Hrun [Htrace [Hok _]]]].
  destruct (Hok VUndefined) as [w'' [Hn [_ Ht]]].
  exists w', w''.
  split; [exact Hrun|]. split; [exact Htrace|]. split; [exact Hn|exact Ht].
Defined.

Lemma demo_dom_fresh : closures_fresh demo_dom.
Proof. constructor. Defined.

Lemma effect_sizes_canvas_to_parent_witness :
  exists cleanup d',
    useUpdateCanvasSize_effect false demo_dom = (Ok cleanup, d') /\
    canvases d' !! 0 = Some {| cv_width := 800; cv_height := 600;
                               cv_parent := Some (800, 600); cv_context2d := Some 5 |} /\
    canvasCtxRef_current d' = CtxObject 5.
Proof.
  destruct (effect_sizes_canvas_to_parent false demo_dom 0
              {| cv_width := 300; cv_height := 150;
                 cv_parent := Some (800, 600); cv_context2d := Some 5 |}
              800 600 eq_refl eq_refl eq_refl demo_dom_fresh)
    as [cleanup [d' [Hrun [Hsize [_ [Hctx _]]]]]].
  exists cleanup, d'. split; [exact Hrun|]. split; [exact Hsize|exact Hctx].
Defined.

Lemma effect_then_cleanup_restores_listeners_witness :
  resize_listeners
    (snd (run_cleanup
            (Some (RemoveResizeListener {| ls_closure := 0; ls_canvas := Some 0 |}))
            (snd (useUpdateCanvasSize_effect false demo_dom))))
  = [].
Proof.
  apply (effect_then_cleanup_restores_listeners false demo_dom
           (snd (useUpdateCanvasSize_effect false demo_dom))
           (Some (RemoveResizeListener {| ls_closure := 0; ls_canvas := Some 0 |}))
           demo_dom_fresh).
  reflexivity.
Defined.


Lemma mobile_canvas_keeps_first_size_witness :
  canvases (dispatch_resize
              (layout_parent 0 (1024, 768)
                 (snd (useUpdateCanvasSize_effect true demo_dom)))) !! 0
  = Some {| cv_width := 800; cv_height := 600;
            cv_parent := Some (1024, 768); cv_context2d := Some 5 |}.
Proof.
  apply (mobile_canvas_keeps_first_size demo_dom 0
           {| cv_width := 300; cv_height := 150;
              cv_parent := Some (800, 600); cv_context2d := Some 5 |}
           800 600 (1024, 768) demo_dom_fresh eq_refl eq_refl eq_refl).
  constructor.
Defined.

Lemma effect_throws_without_canvas_or_parent_witness :
  exists e d',
    useUpdateCanvasSize_effect false demo_dom_unmounted = (Throw e, d') /\
    err_name e = "TypeError" /\
    canvasCtxRef_current d' = CtxUndefined /\
    resize_listeners d' = [] /\
    canvases d' = ∅.
Proof.
  apply (proj1 (effect_throws_without_canvas_or_parent false demo_dom_unmounted)).
  reflexivity.
Defined.
